(** * TinyLink: the short-link table and its HTTP handlers

    A shallow embedding of the [links] table of [database/schema.sql] and
    of the Express handlers of the server ([GET /:code], [GET /api/links],
    [GET /api/links/:code], [POST /api/links], [DELETE /api/links/:code])
    together with [generateShortCode].

    Conventions of the model.
    - The table is the list of its rows, in insertion order.  The surrogate
      key [id] is never read or written by a handler and is left out.
    - Each [pool.query] is one atomic step of the database.  A statement
      either answers or raises; the errors modelled are the ones the data
      decides: unique violation, [VARCHAR(10)] overflow, [INTEGER]
      overflow, and the character 0, which no text value may contain and
      which makes the [INSERT] raise.  The lookups by code are modelled
      for codes without that character.  Connection failures are outside
      the model, but for the listing, which has no other way to fail:
      [get_api_links_db] is told whether the database answers.
    - [CURRENT_TIMESTAMP] is the argument [now] of the statement that reads
      it; timestamps are integers (microseconds).
    - [Math.random()] is a stream of rationals; the draws a call makes are
      numbered from 0.  Products with small integers are taken exactly.
    - Strings are byte strings.  The fields of a request body are strings
      or absent. *)

From Stdlib Require Import ZArith List String Ascii Bool Lia.
From Stdlib Require Import QArith Qround.
From Stdlib Require Import Permutation Sorted.
Import ListNotations.

Local Open Scope Z_scope.
Local Open Scope string_scope.

(* ================================================================== *)
(** ** database/schema.sql *)
(* ================================================================== *)

Module Schema.

(** One row of [links], without [id]. *)
Record link : Type := mkLink {
  short_code      : string;      (* VARCHAR(10) UNIQUE NOT NULL *)
  original_url    : string;      (* TEXT NOT NULL *)
  clicks          : Z;           (* INTEGER DEFAULT 0 *)
  last_clicked_at : option Z;    (* TIMESTAMP WITH TIME ZONE, nullable *)
  created_at      : Z            (* ... DEFAULT CURRENT_TIMESTAMP *)
}.

Definition table : Type := list link.

(** Largest value of a PostgreSQL [INTEGER]. *)
Definition INT4_MAX : Z := 2147483647.

(** Length bound of [VARCHAR(10)]. *)
Definition VARCHAR_MAX : nat := 10.

(** [SELECT ... FROM links WHERE short_code = $1]: the matching rows. *)
Definition select_by_code (code : string) (t : table) : list link :=
  filter (fun r => short_code r =? code) t.

(** The character 0 occurs in [s]: PostgreSQL refuses such a string as a
    text value. *)
Fixpoint has_nul (s : string) : bool :=
  match s with
  | EmptyString => false
  | String a s' => Ascii.eqb a zero || has_nul s'
  end.

(** [INSERT INTO links (short_code, original_url) VALUES ($1, $2)
    RETURNING ...]: the new row takes the column defaults.  The statement
    raises ([None]) on a value with the character 0, on a code too long
    for the column and on a duplicate key. *)
Definition insert_link (code url : string) (now : Z) (t : table)
  : option (link * table) :=
  if has_nul code || has_nul url then None
  else if (VARCHAR_MAX <? String.length code)%nat then None
  else match select_by_code code t with
       | _ :: _ => None
       | [] =>
           let r := mkLink code url 0 None now in
           Some (r, (t ++ [r])%list)
       end.

(** The assignment list of the click [UPDATE]. *)
Definition click (now : Z) (r : link) : link :=
  mkLink (short_code r) (original_url r) (clicks r + 1) (Some now)
         (created_at r).

(** [UPDATE links SET clicks = clicks + 1, last_clicked_at =
    CURRENT_TIMESTAMP WHERE short_code = $1].  The statement raises
    ([None], integer out of range) when [clicks + 1] leaves the type, and
    then changes nothing. *)
Definition update_click (code : string) (now : Z) (t : table)
  : option table :=
  if existsb (fun r => (short_code r =? code) && (INT4_MAX <=? clicks r)%Z) t
  then None
  else Some (map (fun r => if short_code r =? code then click now r else r)
                 t).

(** [DELETE FROM links WHERE short_code = $1 RETURNING short_code]: the
    deleted rows and the remaining table. *)
Definition delete_by_code (code : string) (t : table)
  : list link * table :=
  (select_by_code code t,
   filter (fun r => negb (short_code r =? code)) t).

(** [ORDER BY created_at DESC], as a stable insertion sort.  The database
    leaves the order of rows with equal keys open: what is proved of a
    listing does not rest on the order this sort gives them. *)
Fixpoint insert_desc (r : link) (l : list link) : list link :=
  match l with
  | [] => [r]
  | x :: l' =>
      if (created_at x <=? created_at r)%Z then r :: x :: l'
      else x :: insert_desc r l'
  end.

Fixpoint order_by_created_desc (l : list link) : list link :=
  match l with
  | [] => []
  | r :: l' => insert_desc r (order_by_created_desc l')
  end.

(** [SELECT short_code, original_url, clicks, last_clicked_at, created_at
    FROM links ORDER BY created_at DESC].  No data makes this statement
    raise; it raises ([None]) when the database does not answer, [up]
    being false. *)
Definition select_newest_first (up : bool) (t : table)
  : option (list link) :=
  if up then Some (order_by_created_desc t) else None.

(** The sample rows of the schema file:
    [INSERT ... ON CONFLICT (short_code) DO NOTHING]. *)
Definition sample_data : list (string * string) :=
  [ ("docs",   "https://docs.example.com");
    ("google", "https://google.com");
    ("test",   "https://example.com/test") ].

Definition insert_do_nothing (now : Z) (t : table) (cu : string * string)
  : table :=
  match insert_link (fst cu) (snd cu) now t with
  | Some (_, t') => t'
  | None => t
  end.

(** Running the schema file at time [now]. *)
Definition schema_sql (now : Z) (t : table) : table :=
  fold_left (insert_do_nothing now) sample_data t.

End Schema.

Import Schema.

(* ================================================================== *)
(** ** Values that cross the HTTP boundary *)
(* ================================================================== *)

(** A column value as the driver hands it over. *)
Inductive value : Type :=
| VNull
| VInt  (n : Z)
| VText (s : string)
| VTime (t : Z).

(** A result row: the selected columns, in the order of the select list. *)
Definition row_obj : Type := list (string * value).

Inductive json : Type :=
| JObj (o : row_obj)
| JArr (rows : list row_obj).

Inductive response : Type :=
| Json     (status : Z) (body : json)        (* res.status(s).json(b) *)
| Redirect (status : Z) (location : string). (* res.redirect(s, url)  *)

Definition column (name : string) (r : link) : value :=
  if name =? "short_code" then VText (short_code r)
  else if name =? "original_url" then VText (original_url r)
  else if name =? "clicks" then VInt (clicks r)
  else if name =? "last_clicked_at" then
    match last_clicked_at r with Some t => VTime t | None => VNull end
  else if name =? "created_at" then VTime (created_at r)
  else VNull.

(** A select list applied to a row. *)
Definition project (cols : list string) (r : link) : row_obj :=
  map (fun c => (c, column c r)) cols.

(** Property access on a result row: [None] is [undefined]. *)
Fixpoint field (name : string) (o : row_obj) : option value :=
  match o with
  | [] => None
  | (k, v) :: o' => if k =? name then Some v else field name o'
  end.

Definition error (msg : string) : json := JObj [("error", VText msg)].
Definition message (msg : string) : json := JObj [("message", VText msg)].

(* ================================================================== *)
(** ** generateShortCode and the custom-code pattern *)
(* ================================================================== *)

Definition chars : string :=
  "ABCDEFGHIJKLMNOPQRSTUVWXYZabcdefghijklmnopqrstuvwxyz0123456789".

(** [s.charAt(i)]: the empty string outside the string. *)
Definition charAt (s : string) (i : Z) : string :=
  if (i <? 0)%Z then "" else substring (Z.to_nat i) 1 s.

(** [Math.floor(Math.random() * n)] on draw [r]. *)
Definition floor_scaled (r : Q) (n : Z) : Z := Qfloor (r * inject_Z n).

(** The body of the [for] loop, [n] iterations left, next draw [i]. *)
Fixpoint generate_loop (rand : nat -> Q) (i n : nat) (result : string)
  : string :=
  match n with
  | O => result
  | S n' =>
      generate_loop rand (S i) n'
        (result ++
         charAt chars (floor_scaled (rand i) (Z.of_nat (String.length chars))))
  end.

Definition generateShortCode (rand : nat -> Q) : string :=
  let length := floor_scaled (rand 0%nat) 3 + 6 in
  generate_loop rand 1 (Z.to_nat length) "".

Definition is_alnum (c : ascii) : bool :=
  let n := nat_of_ascii c in
  ((65 <=? n) && (n <=? 90) || (97 <=? n) && (n <=? 122)
   || (48 <=? n) && (n <=? 57))%nat.

Fixpoint all_alnum (s : string) : bool :=
  match s with
  | EmptyString => true
  | String c s' => is_alnum c && all_alnum s'
  end.

(** One alphanumeric character. *)
Definition single_alnum (s : string) : bool :=
  match s with
  | String c EmptyString => is_alnum c
  | _ => false
  end.

(** [/^[A-Za-z0-9]{6,8}$/.test(s)]. *)
Definition code_pattern_test (s : string) : bool :=
  all_alnum s && (6 <=? String.length s)%nat && (String.length s <=? 8)%nat.

(* ================================================================== *)
(** ** The handlers *)
(* ================================================================== *)

(** [code.toLowerCase()] for the comparison with the reserved names: the
    letters A-Z are lowered, and no other character is lowered to a
    string of those names. *)
Definition lower_ascii (c : ascii) : ascii :=
  let n := nat_of_ascii c in
  if ((65 <=? n) && (n <=? 90))%nat then ascii_of_nat (n + 32) else c.

Fixpoint toLowerCase (s : string) : string :=
  match s with
  | EmptyString => EmptyString
  | String c s' => String (lower_ascii c) (toLowerCase s')
  end.

Definition reserved_paths : list string := ["api"; "healthz"; "code"; "public"].

(** [arr.includes(x)] *)
Definition includes (l : list string) (x : string) : bool :=
  existsb (fun y => y =? x) l.

Definition reserved (code : string) : bool :=
  includes reserved_paths (toLowerCase code).

Definition all_columns : list string :=
  ["short_code"; "original_url"; "clicks"; "last_clicked_at"; "created_at"].

Definition returning_columns : list string :=
  ["short_code"; "original_url"; "clicks"; "created_at"].

Definition internal_error : response :=
  Json 500 (error "Internal server error").

(** [app.get('/:code')] *)
Definition get_code (code : string) (now : Z) (t : table)
  : response * table :=
  if reserved code then (Redirect 302 "/", t)
  else
    match select_by_code code t with
    | [] => (Json 404 (error "Short URL not found"), t)
    | row0 :: _ =>
        match update_click code now t with
        | None => (internal_error, t)
        | Some t' => (Redirect 302 (original_url row0), t')
        end
    end.

(** [app.get('/api/links')]; [up] tells whether the database answers the
    query. *)
Definition get_api_links_db (up : bool) (t : table) : response * table :=
  match select_newest_first up t with
  | Some rows => (Json 200 (JArr (map (project all_columns) rows)), t)
  | None => (internal_error, t)
  end.

(** [app.get('/api/links')] with the database answering. *)
Definition get_api_links (t : table) : response * table :=
  get_api_links_db true t.

(** [app.get('/api/links/:code')] *)
Definition get_api_links_code (code : string) (t : table)
  : response * table :=
  match select_by_code code t with
  | [] => (Json 404 (error "Link not found"), t)
  | row0 :: _ => (Json 200 (JObj (project all_columns row0)), t)
  end.

(** [app.delete('/api/links/:code')] *)
Definition delete_api_links_code (code : string) (t : table)
  : response * table :=
  match delete_by_code code t with
  | ([], _) => (Json 404 (error "Link not found"), t)
  | (_ :: _, t') => (Json 200 (message "Link deleted successfully"), t')
  end.

(** [req.body] of [POST /api/links]. *)
Record create_body : Type := mkBody {
  url        : option string;
  customCode : option string
}.

(** [!x] for a string or [undefined]. *)
Definition falsy (x : option string) : bool :=
  match x with
  | None => true
  | Some s => s =? ""
  end.

Definition text (x : option string) : string :=
  match x with Some s => s | None => "" end.

(** The [try] block of [app.post('/api/links')], entered with the short
    code the handler has settled on. *)
Definition insert_unless_exists (shortCode url : string) (now : Z)
  (t : table) : response * table :=
  match select_by_code shortCode t with
  | _ :: _ => (Json 409 (error "409 Custom code already exists"), t)
  | [] =>
      match insert_link shortCode url now t with
      | None => (internal_error, t)
      | Some (row0, t') =>
          (Json 201 (JObj (project returning_columns row0)), t')
      end
  end.

Section Create.

(** [validator.isURL(u, { require_protocol: true })], from the validator
    package. *)
Variable isURL : string -> bool.

(** [app.post('/api/links')] *)
Definition post_api_links (req : create_body) (rand : nat -> Q) (now : Z)
  (t : table) : response * table :=
  if falsy (url req) || negb (isURL (text (url req))) then
    (Json 400 (error "Invalid URL. Please include http:// or https://"), t)
  else
    let shortCode := customCode req in
    if falsy shortCode then
      insert_unless_exists (generateShortCode rand) (text (url req)) now t
    else if negb (code_pattern_test (text shortCode)) then
      (Json 400
         (error "Custom code must be 6-8 characters and contain only letters and numbers"),
       t)
    else insert_unless_exists (text shortCode) (text (url req)) now t.

End Create.

(** Every route of the server that touches the table. *)
Inductive request : Type :=
| GET_code (code : string)
| GET_api_links
| GET_api_links_code (code : string)
| POST_api_links (req : create_body) (rand : nat -> Q)
| DELETE_api_links_code (code : string).

Definition handle (isURL : string -> bool) (rq : request) (now : Z)
  (t : table) : response * table :=
  match rq with
  | GET_code code => get_code code now t
  | GET_api_links => get_api_links t
  | GET_api_links_code code => get_api_links_code code t
  | POST_api_links req rand => post_api_links isURL req rand now t
  | DELETE_api_links_code code => delete_api_links_code code t
  end.

(** [GET /:code] requested once at each time of [times], one request after
    the other. *)
Fixpoint redirect_seq (code : string) (times : list Z) (t : table)
  : list response * table :=
  match times with
  | [] => ([], t)
  | now :: times' =>
      let (res, t1) := get_code code now t in
      let (rs, t2) := redirect_seq code times' t1 in
      (res :: rs, t2)
  end.

(* ================================================================== *)
(** ** Requests in flight *)
(* ================================================================== *)

(** The [async] handler of [GET /:code] gives up control at each [await].
    A request in flight is waiting for the answer to its [SELECT], waiting
    for its [UPDATE] (holding the rows the [SELECT] returned), or has
    responded. *)
Inductive redirect_task : Type :=
| AwaitSelect (code : string)
| AwaitUpdate (code : string) (rows : list link)
| Responded   (res : response).

(** Arrival of a request: the handler runs up to its first [await]. *)
Definition redirect_begin (code : string) : redirect_task :=
  if reserved code then Responded (Redirect 302 "/") else AwaitSelect code.

(** The database executes the pending statement of a task at time [now],
    and the handler runs on to its next [await] or to its response. *)
Definition redirect_resume (now : Z) (k : redirect_task) (t : table)
  : redirect_task * table :=
  match k with
  | AwaitSelect code =>
      match select_by_code code t with
      | [] => (Responded (Json 404 (error "Short URL not found")), t)
      | rows => (AwaitUpdate code rows, t)
      end
  | AwaitUpdate code rows =>
      match update_click code now t with
      | None => (Responded internal_error, t)
      | Some t' =>
          (Responded
             (Redirect 302
                match rows with row0 :: _ => original_url row0 | [] => "" end),
           t')
      end
  | Responded res => (Responded res, t)
  end.




(* ================================================================== *)
(** ** Vocabulary of the statements *)
(* ================================================================== *)

(** The row a code denotes: the first row a lookup by code returns. *)
Definition find_link (code : string) (t : table) : option link :=
  hd_error (select_by_code code t).

(** The [UNIQUE] constraint on [short_code]. *)
Definition unique_codes (t : table) : Prop := NoDup (map short_code t).

(** Every counter is a non-negative [INTEGER]. *)
Definition clicks_in_range (t : table) : Prop :=
  Forall (fun r => 0 <= clicks r <= INT4_MAX) t.

Definition store_ok (t : table) : Prop :=
  unique_codes t /\ clicks_in_range t.

(** The draws of [Math.random()] lie in [[0, 1)]. *)
Definition unit_draws (rand : nat -> Q) : Prop :=
  forall i, (0 <= rand i)%Q /\ (rand i < 1)%Q.

(** The code [POST /api/links] goes on with. *)
Definition chosen_code (req : create_body) (rand : nat -> Q) : string :=
  if falsy (customCode req) then generateShortCode rand
  else text (customCode req).





(** [GET /:code] answered with the redirect to the link behind [code]. *)
Definition redirected (rq : request) (res : response) (code : string)
  : Prop :=
  rq = GET_code code /\ reserved code = false /\
  exists u, res = Redirect 302 u.

(** Modelled from the spec: the validator package is not among the
    sources.  A destination is a syntactically valid absolute URL with an
    explicit scheme: here one of the schemes http, https and ftp, the
    separator and a non-empty remainder.  Used to instantiate [isURL] in
    closed examples only. *)
Definition isURL_sample (u : string) : bool :=
  match index 0 "://" u with
  | Some n =>
      includes ["http"; "https"; "ftp"] (toLowerCase (substring 0 n u))
      && negb (substring (n + 3) (String.length u) u =? "")
  | None => false
  end.


(** Draws for closed examples. *)
Definition sample_draws (i : nat) : Q := 1 # Pos.of_succ_nat (S i).

(** The link of the scenario of the specification, as created at time 0,
    and the table that holds just this link. *)
Definition mycode1_link : link :=
  mkLink "mycode1" "https://example.com" 0 None 0.

Definition mycode1_table : table := [mycode1_link].

(** The table after [POST /api/links] with the custom code "public" on
    the empty table. *)
Definition public_table : table :=
  snd (post_api_links isURL_sample
         (mkBody (Some "https://example.com") (Some "public"))
         sample_draws 0 []).

(** The table the schema file leaves when run at time 0 on an empty
    database. *)
Definition seeded_table : table := schema_sql 0 [].

(** The order of [ORDER BY created_at DESC]: [a] may stand before [b]. *)
Definition newer_first (a b : link) : Prop := created_at b <= created_at a.

(** The scenario's link with its counter at the top of the type. *)
Definition saturated_table : table :=
  [mkLink "mycode1" "https://example.com" INT4_MAX (Some 5) 0].






(** A row after [n] more clicks, the last one recorded as [last]. *)
Definition clicked (n : Z) (last : option Z) (r : link) : link :=
  mkLink (short_code r) (original_url r) (clicks r + n) last (created_at r).


(** The statement [UPDATE ... WHERE short_code = code] applied row by
    row. *)
Definition click_where (code : string) (now : Z) (r : link) : link :=
  if short_code r =? code then click now r else r.

(* ================================================================== *)
(** ** Requests of every kind in flight *)
(* ================================================================== *)

(** The [async] handler of [POST /api/links]: after the checks of the
    body it waits for the answer to its existence [SELECT], then for its
    [INSERT], then responds. *)
Inductive create_task : Type :=
| AwaitExisting (shortCode url : string)
| AwaitInsert   (shortCode url : string)
| Answered      (res : response).

(** Arrival of a create: the handler runs up to its first [await]. *)
Definition create_begin (isURL : string -> bool) (req : create_body)
  (rand : nat -> Q) : create_task :=
  if falsy (url req) || negb (isURL (text (url req))) then
    Answered
      (Json 400 (error "Invalid URL. Please include http:// or https://"))
  else
    let shortCode := customCode req in
    if falsy shortCode then
      AwaitExisting (generateShortCode rand) (text (url req))
    else if negb (code_pattern_test (text shortCode)) then
      Answered
        (Json 400
           (error "Custom code must be 6-8 characters and contain only letters and numbers"))
    else AwaitExisting (text shortCode) (text (url req)).

(** The database executes the pending statement of a create at time
    [now]. *)
Definition create_resume (now : Z) (k : create_task) (t : table)
  : create_task * table :=
  match k with
  | AwaitExisting shortCode url =>
      match select_by_code shortCode t with
      | _ :: _ =>
          (Answered (Json 409 (error "409 Custom code already exists")), t)
      | [] => (AwaitInsert shortCode url, t)
      end
  | AwaitInsert shortCode url =>
      match insert_link shortCode url now t with
      | None => (Answered internal_error, t)
      | Some (row0, t') =>
          (Answered (Json 201 (JObj (project returning_columns row0))), t')
      end
  | Answered res => (Answered res, t)
  end.

(** A request of any of the three writing routes in flight; the handler
    of [DELETE /api/links/:code] has a single statement. *)
Inductive server_task : Type :=
| Redirecting (k : redirect_task)
| Creating    (k : create_task)
| Deleting    (code : string)
| Finished    (res : response).

Definition settle_redirect (k : redirect_task) : server_task :=
  match k with Responded res => Finished res | _ => Redirecting k end.

Definition settle_create (k : create_task) : server_task :=
  match k with Answered res => Finished res | _ => Creating k end.

(** The database executes the pending statement of a request. *)
Definition server_resume (now : Z) (k : server_task) (t : table)
  : server_task * table :=
  match k with
  | Redirecting k0 =>
      let (k1, t') := redirect_resume now k0 t in (settle_redirect k1, t')
  | Creating k0 =>
      let (k1, t') := create_resume now k0 t in (settle_create k1, t')
  | Deleting code =>
      let (res, t') := delete_api_links_code code t in (Finished res, t')
  | Finished res => (Finished res, t)
  end.

Fixpoint server_resume_nth (i : nat) (now : Z) (ks : list server_task)
  (t : table) {struct ks} : list server_task * table :=
  match ks with
  | [] => ([], t)
  | k :: ks' =>
      match i with
      | O => let (k', t') := server_resume now k t in (k' :: ks', t')
      | S i' =>
          let (ks'', t') := server_resume_nth i' now ks' t in (k :: ks'', t')
      end
  end.

Fixpoint server_run (sched : list (nat * Z)) (ks : list server_task)
  (t : table) : list server_task * table :=
  match sched with
  | [] => (ks, t)
  | (i, now) :: sched' =>
      let (ks', t') := server_resume_nth i now ks t in
      server_run sched' ks' t'
  end.

(** The code a request was told it created. *)
Definition created_code (k : server_task) : option string :=
  match k with
  | Finished (Json status (JObj o)) =>
      if (status =? 201)%Z then
        match field "short_code" o with
        | Some (VText c) => Some c
        | _ => None
        end
      else None
  | _ => None
  end.


(** The status of a response. *)
Definition status_of (res : response) : Z :=
  match res with
  | Json status _ => status
  | Redirect status _ => status
  end.

(* ================================================================== *)
(** ** The stats page, [app.get('/code/:code')] *)
(* ================================================================== *)

(** The expressions interpolated into the template literal of the page. *)
Inductive page_expr : Type :=
| LinkColumn (col : string)      (* link.col *)
| WindowLocationOrigin           (* window.location.origin *)
| CreatedAtLocale                (* new Date(link.created_at).toLocaleString() *)
| LastClickedOrNever.            (* link.last_clicked_at ? ... : 'Never' *)

(** The template literal, chunk by chunk: [Chunk n] is its [n]-th piece of
    markup, the other parts are the interpolations in their order. *)
Inductive page_part : Type :=
| Chunk (n : nat)
| Hole  (e : page_expr).

Definition stats_template : list page_part :=
  [ Chunk 0; Hole (LinkColumn "short_code");
    Chunk 1; Hole (LinkColumn "short_code");
    Chunk 2; Hole (LinkColumn "clicks");
    Chunk 3; Hole WindowLocationOrigin; Chunk 4;
    Hole (LinkColumn "short_code");
    Chunk 5; Hole WindowLocationOrigin; Chunk 6;
    Hole (LinkColumn "short_code");
    Chunk 7; Hole (LinkColumn "original_url");
    Chunk 8; Hole (LinkColumn "original_url");
    Chunk 9; Hole CreatedAtLocale;
    Chunk 10; Hole LastClickedOrNever;
    Chunk 11 ].

(** What the page handler sends. *)
Inductive page_response : Type :=
| Send (html : string)              (* res.send(html) *)
| RedirectTo (location : string).   (* res.redirect(location) *)

Section StatsPage.

(** The markup between the interpolations, the conversion of a column
    value to a string, and the locale's rendering of a timestamp. *)
Variable markup : nat -> string.
Variable to_string : value -> string.
Variable toLocaleString : Z -> string.

(** The value of [window.location.origin] in the process that runs the
    server: [None] when there is no global [window], and reading it raises
    a ReferenceError. *)
Variable window_origin : option string.

Definition eval_page_expr (r : link) (e : page_expr) : option string :=
  match e with
  | LinkColumn col => Some (to_string (column col r))
  | WindowLocationOrigin => window_origin
  | CreatedAtLocale => Some (toLocaleString (created_at r))
  | LastClickedOrNever =>
      match last_clicked_at r with
      | Some ts => Some (toLocaleString ts)
      | None => Some "Never"
      end
  end.

(** Evaluation of a template literal, left to right; [None] when an
    interpolation raises. *)
Fixpoint eval_template (r : link) (parts : list page_part)
  : option string :=
  match parts with
  | [] => Some ""
  | Chunk n :: parts' =>
      match eval_template r parts' with
      | Some rest => Some (markup n ++ rest)
      | None => None
      end
  | Hole e :: parts' =>
      match eval_page_expr r e with
      | None => None
      | Some s =>
          match eval_template r parts' with
          | Some rest => Some (s ++ rest)
          | None => None
          end
      end
  end.

(** [app.get('/code/:code')], the first handler registered for the path:
    the [catch] answers an exception with the redirect to the dashboard. *)
Definition get_code_code (code : string) (t : table)
  : page_response * table :=
  match select_by_code code t with
  | [] => (RedirectTo "/", t)
  | row0 :: _ =>
      match eval_template row0 stats_template with
      | Some html => (Send html, t)
      | None => (RedirectTo "/", t)
      end
  end.

End StatsPage.

(* ================================================================== *)
(** ** public/script.js *)
(* ================================================================== *)

(** The double quote. *)
Definition dquote : ascii := ascii_of_nat 34.

(** [s.replace(/c/g, by)] for a one-character pattern. *)
Fixpoint replace_all (c : ascii) (by_ : string) (s : string) : string :=
  match s with
  | EmptyString => EmptyString
  | String a s' =>
      if Ascii.eqb a c then by_ ++ replace_all c by_ s'
      else String a (replace_all c by_ s')
  end.

(** [escapeHtml(unsafe)] *)
Definition escapeHtml (unsafe : string) : string :=
  replace_all "'" "&#039;"
    (replace_all dquote "&quot;"
       (replace_all ">" "&gt;"
          (replace_all "<" "&lt;"
             (replace_all "&" "&amp;" unsafe)))).

(** What [escapeHtml] makes of one character. *)
Definition escape_char (a : ascii) : string :=
  if Ascii.eqb a "&" then "&amp;"
  else if Ascii.eqb a "<" then "&lt;"
  else if Ascii.eqb a ">" then "&gt;"
  else if Ascii.eqb a dquote then "&quot;"
  else if Ascii.eqb a "'" then "&#039;"
  else String a EmptyString.

Definition html_special (a : ascii) : bool :=
  Ascii.eqb a "<" || Ascii.eqb a ">" || Ascii.eqb a dquote
  || Ascii.eqb a "'".

Fixpoint occurs (a : ascii) (s : string) : bool :=
  match s with
  | EmptyString => false
  | String b s' => Ascii.eqb b a || occurs a s'
  end.

(** [s.includes(term)] *)
Fixpoint str_includes (s term : string) : bool :=
  prefix term s
  || match s with
     | EmptyString => false
     | String _ s' => str_includes s' term
     end.

(** The state of [TinyLinkApp]: the rows as loaded and the rows shown. *)
Record app_state : Type := mkApp {
  links         : list link;
  filteredLinks : list link
}.

Section Search.

(** [String.prototype.toLowerCase], from the browser.  It lowers every
    cased letter, not only the letters A-Z. *)
Variable lower : string -> string.

(** The test of [filterLinks] on one row. *)
Definition link_matches (term : string) (l : link) : bool :=
  str_includes (lower (short_code l)) term
  || str_includes (lower (original_url l)) term.

(** [filterLinks(searchTerm)] *)
Definition filterLinks (searchTerm : string) (app : app_state) : app_state :=
  if searchTerm =? "" then mkApp (links app) (links app)
  else
    let term := lower searchTerm in
    mkApp (links app) (filter (link_matches term) (links app)).

End Search.

(** The mark [validateCustomCode] leaves on the input field. *)
Inductive input_mark : Type := Unmarked | InputError | InputSuccess.

(** What a validation returns and what it leaves on the page: the message
    of the error element ([None] when hidden) and the mark of the input. *)
Record validation : Type := mkValidation {
  valid       : bool;
  error_shown : option string;
  mark        : input_mark
}.

(** [validateCustomCode(code, forSubmit)] *)
Definition validateCustomCode (code : string) (forSubmit : bool)
  : validation :=
  if code =? "" then mkValidation true None Unmarked
  else if negb (code_pattern_test code) then
    mkValidation false
      (Some (if forSubmit
             then "Custom code must be 6-8 characters and contain only letters and numbers"
             else "6-8 characters, letters and numbers only"))
      InputError
  else mkValidation true None InputSuccess.

Section ClientCreate.

(** Whether [new URL(u)] returns, from the browser. *)
Variable URL_parses : string -> bool.



End ClientCreate.

(* ================================================================== *)
(** ** Vocabulary of the further statements *)
(* ================================================================== *)

(** Time has not run backwards on the table: no row was created after
    [now], and a last click lies between the creation and [now]. *)
Definition chronological (now : Z) (t : table) : Prop :=
  Forall (fun r =>
            created_at r <= now
            /\ match last_clicked_at r with
               | Some ts => created_at r <= ts <= now
               | None => True
               end) t.

(** The position of a character in [chars], 0 when it is not there. *)
Fixpoint position (a : ascii) (s : string) : Z :=
  match s with
  | EmptyString => 0
  | String b s' => if Ascii.eqb b a then 0 else 1 + position a s'
  end.

(** Draws under which [generateShortCode] spells [s]. *)
Definition draws_for (s : string) (i : nat) : Q :=
  match i with
  | O => (Z.of_nat (String.length s) - 6) # 3
  | S j =>
      match get j s with
      | Some a => position a chars # 62
      | None => 0
      end
  end.

(** The code a request is about, if it is about one. *)
Definition addressed (rq : request) : option string :=
  match rq with
  | GET_code code => Some code
  | GET_api_links => None
  | GET_api_links_code code => Some code
  | POST_api_links req rand => Some (chosen_code req rand)
  | DELETE_api_links_code code => Some code
  end.

(** The rows of a JSON array, none for an object. *)
Definition rows_of (res : response) : list row_obj :=
  match res with
  | Json _ (JArr rows) => rows
  | _ => []
  end.





(** [escape_char] applied to each character in turn. *)
Fixpoint escape_each (s : string) : string :=
  match s with
  | EmptyString => EmptyString
  | String a s' => escape_char a ++ escape_each s'
  end.

(** [term] occurs in [s]: [s] is [a ++ term ++ b] for some [a] and [b]. *)
Definition occurs_in (term s : string) : Prop :=
  exists a b, s = a ++ term ++ b.

(** Every character of [s] is an ASCII character.  On such strings the
    [toLowerCase] of JavaScript changes the letters A-Z and nothing
    else. *)
Fixpoint ascii_only (s : string) : bool :=
  match s with
  | EmptyString => true
  | String a s' => (nat_of_ascii a <? 128)%nat && ascii_only s'
  end.

(** [lower] is a [toLowerCase] of JavaScript as far as ASCII goes. *)
Definition lowers_ascii (lower : string -> string) : Prop :=
  forall s, ascii_only s = true -> lower s = toLowerCase s.

(* ================================================================== *)
(** ** Strings *)
(* ================================================================== *)

Lemma length_append (a b : string) :
  String.length (a ++ b) = (String.length a + String.length b)%nat.
Proof.
  induction a as [|c a IH]; simpl; [reflexivity | now rewrite IH].
Qed.

Lemma all_alnum_append (a b : string) :
  all_alnum (a ++ b) = all_alnum a && all_alnum b.
Proof.
  induction a as [|c a IH]; simpl; [reflexivity|].
  now rewrite IH, andb_assoc.
Qed.

(* ================================================================== *)
(** ** The generator *)
(* ================================================================== *)

Lemma floor_scaled_range (r : Q) (n : Z) :
  (0 <= r)%Q -> (r < 1)%Q -> 0 < n -> 0 <= floor_scaled r n < n.
Proof.
  intros H0 H1 Hn. unfold floor_scaled.
  assert (Hq : (inject_Z 0 < inject_Z n)%Q) by (rewrite <- Zlt_Qlt; exact Hn).
  change (inject_Z 0) with 0%Q in Hq.
  split.
  - change 0 with (Qfloor 0). apply Qfloor_resp_le.
    apply Qmult_le_0_compat; [exact H0 | apply Qlt_le_weak, Hq].
  - rewrite Zlt_Qlt.
    apply Qle_lt_trans with (y := (r * inject_Z n)%Q); [apply Qfloor_le|].
    rewrite <- (Qmult_1_l (inject_Z n)) at 2.
    apply Qmult_lt_r; assumption.
Qed.

Lemma charAt_chars (i : Z) :
  0 <= i < Z.of_nat (String.length chars) ->
  single_alnum (charAt chars i) = true.
Proof.
  intros Hi.
  assert (Hall : forallb (fun k => single_alnum (charAt chars (Z.of_nat k)))
                         (seq 0 (String.length chars)) = true)
    by (vm_compute; reflexivity).
  rewrite forallb_forall in Hall.
  specialize (Hall (Z.to_nat i)).
  rewrite Z2Nat.id in Hall by lia.
  apply Hall, in_seq. lia.
Qed.

Lemma single_alnum_spec (s : string) :
  single_alnum s = true -> String.length s = 1%nat /\ all_alnum s = true.
Proof.
  destruct s as [|c [|d s]]; simpl; try discriminate.
  intros ->. split; reflexivity.
Qed.

Lemma generate_loop_spec (rand : nat -> Q) (n : nat) :
  unit_draws rand ->
  forall i result,
    String.length (generate_loop rand i n result)
      = (String.length result + n)%nat
    /\ all_alnum (generate_loop rand i n result) = all_alnum result.
Proof.
  intros Hr. induction n as [|n IH]; intros i result; cbn [generate_loop].
  - split; [lia | reflexivity].
  - destruct (Hr i) as [H0 H1].
    destruct (single_alnum_spec
                (charAt chars
                   (floor_scaled (rand i) (Z.of_nat (String.length chars)))))
      as [Hlen Hal].
    { apply charAt_chars, floor_scaled_range; try assumption.
      vm_compute; reflexivity. }
    destruct (IH (S i)
                (result ++
                 charAt chars
                   (floor_scaled (rand i) (Z.of_nat (String.length chars)))))
      as [IHlen IHal].
    rewrite IHlen, IHal, length_append, all_alnum_append, Hlen, Hal.
    split; [lia | apply andb_true_r].
Qed.

Lemma generateShortCode_length (rand : nat -> Q) :
  unit_draws rand ->
  (6 <= String.length (generateShortCode rand) <= 8)%nat
  /\ all_alnum (generateShortCode rand) = true.
Proof.
  intros Hr. unfold generateShortCode.
  destruct (Hr 0%nat) as [H0 H1].
  pose proof (floor_scaled_range (rand 0%nat) 3 H0 H1 ltac:(lia)) as Hl.
  destruct (generate_loop_spec rand
              (Z.to_nat (floor_scaled (rand 0%nat) 3 + 6)) Hr 1%nat "")
    as [Hlen Hal].
  rewrite Hlen, Hal. simpl String.length. split; [lia | reflexivity].
Qed.


(** C6.  Whatever the random source draws, [generateShortCode] returns a
    string of 6, 7 or 8 characters, each of them one of the 62 letters and
    digits, so the custom-code pattern accepts it. *)
Theorem generateShortCode_valid (rand : nat -> Q) :
  unit_draws rand ->
  let code := generateShortCode rand in
  String.length chars = 62%nat
  /\ (String.length code = 6 \/ String.length code = 7
      \/ String.length code = 8)%nat
  /\ all_alnum code = true
  /\ code_pattern_test code = true.
Proof.
  intros Hr code. split; [reflexivity|].
  destruct (generateShortCode_length rand Hr) as [Hlen Hal].
  fold code in Hlen, Hal.
  split; [lia|]. split; [exact Hal|].
  unfold code_pattern_test. rewrite Hal.
  rewrite andb_true_l. apply andb_true_intro; split; apply Nat.leb_le; lia.
Qed.

Lemma sample_draws_unit : unit_draws sample_draws.
Proof.
  intros i. unfold sample_draws, Qle, Qlt. cbn [Qnum Qden].
  rewrite Zpos_P_of_succ_nat. lia.
Defined.

(* ================================================================== *)
(** ** The statements of the table *)
(* ================================================================== *)

Lemma select_by_code_In (c : string) (t : table) (r : link) :
  In r (select_by_code c t) <-> In r t /\ short_code r = c.
Proof.
  unfold select_by_code. rewrite filter_In, String.eqb_eq. reflexivity.
Qed.

Lemma select_by_code_absent (c : string) (t : table) :
  ~ In c (map short_code t) -> select_by_code c t = [].
Proof.
  intros Hn. destruct (select_by_code c t) as [|r l] eqn:E; [reflexivity|].
  exfalso. apply Hn.
  assert (Hr : In r (select_by_code c t)) by (rewrite E; left; reflexivity).
  apply select_by_code_In in Hr. destruct Hr as [Hin <-].
  now apply in_map.
Qed.

Lemma select_by_code_unique (c : string) (t : table) (r : link) :
  unique_codes t -> find_link c t = Some r -> select_by_code c t = [r].
Proof.
  unfold unique_codes, find_link.
  induction t as [|a t IH]; simpl; intros Hu Hf; [discriminate|].
  inversion Hu as [|x l Hnin Hnd]; subst.
  destruct (short_code a =? c) eqn:E.
  - apply String.eqb_eq in E. subst c. simpl in Hf. inversion Hf; subst.
    now rewrite (select_by_code_absent _ _ Hnin).
  - now apply IH.
Qed.

Lemma find_link_select (c : string) (t : table) (r : link) :
  select_by_code c t = [r] -> find_link c t = Some r.
Proof. unfold find_link. now intros ->. Qed.

Lemma find_link_In (c : string) (t : table) (r : link) :
  find_link c t = Some r -> In r t /\ short_code r = c.
Proof.
  unfold find_link. intros H. apply select_by_code_In.
  destruct (select_by_code c t); simpl in H; [discriminate|].
  inversion H; subst. now left.
Qed.

Lemma select_by_code_app (c : string) (t1 t2 : table) :
  select_by_code c (t1 ++ t2)%list
  = (select_by_code c t1 ++ select_by_code c t2)%list.
Proof. apply filter_app. Qed.

Lemma click_where_code (c : string) (now : Z) (r : link) :
  short_code (click_where c now r) = short_code r.
Proof. unfold click_where. now destruct (short_code r =? c). Qed.

Lemma select_by_code_click_where (c c' : string) (now : Z) (t : table) :
  select_by_code c' (map (click_where c now) t)
  = if c' =? c then map (click now) (select_by_code c t)
    else select_by_code c' t.
Proof.
  unfold select_by_code.
  induction t as [|a t IH]; simpl.
  - now destruct (c' =? c).
  - rewrite click_where_code, IH.
    destruct (c' =? c) eqn:E.
    + apply String.eqb_eq in E. subst c'.
      unfold click_where. destruct (short_code a =? c); reflexivity.
    + unfold click_where at 1.
      destruct (short_code a =? c') eqn:E'; [|reflexivity].
      apply String.eqb_eq in E'. subst c'.
      now rewrite E.
Qed.

Lemma update_click_Some (c : string) (now : Z) (t : table) :
  (forall r, In r (select_by_code c t) -> clicks r < INT4_MAX) ->
  update_click c now t = Some (map (click_where c now) t).
Proof.
  intros H. unfold update_click.
  destruct (existsb _ t) eqn:E; [|reflexivity].
  apply existsb_exists in E. destruct E as (r & Hin & Hr).
  apply andb_prop in Hr. destruct Hr as [Hc Hm].
  apply String.eqb_eq in Hc. apply Z.leb_le in Hm.
  specialize (H r (proj2 (select_by_code_In c t r) (conj Hin Hc))). lia.
Qed.

Lemma update_click_None (c : string) (now : Z) (t : table) (r : link) :
  In r (select_by_code c t) -> INT4_MAX <= clicks r ->
  update_click c now t = None.
Proof.
  intros Hin Hm. apply select_by_code_In in Hin. destruct Hin as [Hin Hc].
  unfold update_click.
  replace (existsb _ t) with true; [reflexivity|].
  symmetry. apply existsb_exists. exists r. split; [exact Hin|].
  apply andb_true_intro. split; [now apply String.eqb_eq | now apply Z.leb_le].
Qed.

Lemma update_click_inv (c : string) (now : Z) (t t' : table) :
  update_click c now t = Some t' -> t' = map (click_where c now) t.
Proof.
  unfold update_click. destruct (existsb _ t); [discriminate|].
  now intros [= <-].
Qed.

(* ================================================================== *)
(** ** Redirects, one after the other *)
(* ================================================================== *)

Lemma clicked_zero (r : link) : clicked 0 (last_clicked_at r) r = r.
Proof. destruct r; unfold clicked; simpl. now rewrite Z.add_0_r. Qed.

Lemma clicked_click (n : Z) (last : option Z) (now : Z) (r : link) :
  clicked n last (click now r) = clicked (1 + n) last r.
Proof.
  unfold clicked, click. cbn [short_code original_url clicks created_at].
  now rewrite Z.add_assoc.
Qed.

Lemma last_cons {A : Type} (a d : A) (l : list A) :
  last (a :: l) d = last l a.
Proof.
  revert a d. induction l as [|b l IH]; intros a d; [reflexivity|].
  change (last (a :: b :: l) d) with (last (b :: l) d).
  now rewrite !IH.
Qed.

Lemma get_code_click (c : string) (now : Z) (t : table) (r : link) :
  reserved c = false ->
  select_by_code c t = [r] ->
  clicks r < INT4_MAX ->
  get_code c now t
  = (Redirect 302 (original_url r), map (click_where c now) t).
Proof.
  intros Hres Hsel Hlt. unfold get_code. rewrite Hres, Hsel.
  rewrite update_click_Some; [reflexivity|].
  intros r0. rewrite Hsel. intros [<-|[]]. exact Hlt.
Qed.

Lemma get_code_overflow (c : string) (now : Z) (t : table) (r : link) :
  reserved c = false ->
  select_by_code c t = [r] ->
  INT4_MAX <= clicks r ->
  get_code c now t = (internal_error, t).
Proof.
  intros Hres Hsel Hge. unfold get_code. rewrite Hres, Hsel.
  rewrite (update_click_None c now t r); [reflexivity| |exact Hge].
  rewrite Hsel. now left.
Qed.

Lemma map_click_where_codes (c : string) (now : Z) (t : table) :
  map short_code (map (click_where c now) t) = map short_code t.
Proof.
  rewrite map_map. apply map_ext. intros r. apply click_where_code.
Qed.

Lemma redirect_seq_spec (c : string) :
  reserved c = false ->
  forall (times : list Z) (t : table) (r : link),
    select_by_code c t = [r] ->
    clicks r + Z.of_nat (List.length times) <= INT4_MAX ->
    exists t',
      redirect_seq c times t
      = (repeat (Redirect 302 (original_url r)) (List.length times), t')
      /\ select_by_code c t'
         = [clicked (Z.of_nat (List.length times))
                    (last (map Some times) (last_clicked_at r)) r]
      /\ map short_code t' = map short_code t.
Proof.
  intros Hres. induction times as [|now times IH]; intros t r Hsel Hle.
  - exists t. simpl. rewrite clicked_zero. auto.
  - cbn [redirect_seq].
    rewrite (get_code_click c now t r Hres Hsel)
      by (cbn [List.length] in Hle; lia).
    destruct (IH (map (click_where c now) t) (click now r)) as (t' & E & S & M).
    { rewrite select_by_code_click_where, String.eqb_refl, Hsel. reflexivity. }
    { cbn [List.length] in Hle. unfold click; simpl. lia. }
    exists t'. rewrite E. split; [reflexivity|]. split.
    + rewrite S, clicked_click. cbn [map]. rewrite last_cons.
      cbn [List.length]. rewrite Nat2Z.inj_succ, Z.add_1_l. reflexivity.
    + now rewrite M, map_click_where_codes.
Qed.

Lemma redirect_seq_app (c : string) (a b : list Z) (t : table) :
  redirect_seq c (a ++ b)%list t
  = let (rs1, t1) := redirect_seq c a t in
    let (rs2, t2) := redirect_seq c b t1 in
    ((rs1 ++ rs2)%list, t2).
Proof.
  revert t. induction a as [|now a IH]; intros t.
  - cbn [app redirect_seq]. now destruct (redirect_seq c b t).
  - cbn [app redirect_seq]. destruct (get_code c now t) as [res t1].
    rewrite IH. destruct (redirect_seq c a t1) as [rs1 t2].
    now destruct (redirect_seq c b t2).
Qed.

Lemma project_all_columns (r : link) :
  project all_columns r
  = [ ("short_code", VText (short_code r));
      ("original_url", VText (original_url r));
      ("clicks", VInt (clicks r));
      ("last_clicked_at",
        match last_clicked_at r with Some t => VTime t | None => VNull end);
      ("created_at", VTime (created_at r)) ].
Proof. reflexivity. Qed.

(** C1, as the handlers have it.  In a table that keeps its unique
    constraint, let [c] be the code of a row [r], not one of the reserved
    path names, and let [n >= 1] requests [GET /c] be served one after the
    other at the times [times], with [clicks r + n] still an [INTEGER].
    Then each request is answered by the 302 redirect to the stored
    destination, and [GET /api/links/c] afterwards shows the row with
    [clicks r + n] clicks ([n] for a link just created) and with
    [last_clicked_at] the time of the last request. *)
Theorem redirect_n_times (c : string) (times : list Z) (t : table)
  (r : link) :
  reserved c = false ->
  unique_codes t ->
  find_link c t = Some r ->
  times <> [] ->
  clicks r + Z.of_nat (List.length times) <= INT4_MAX ->
  exists t',
    let r' := clicked (Z.of_nat (List.length times)) (Some (last times 0)) r in
    redirect_seq c times t
    = (repeat (Redirect 302 (original_url r)) (List.length times), t')
    /\ get_api_links_code c t' = (Json 200 (JObj (project all_columns r')), t')
    /\ field "clicks" (project all_columns r')
       = Some (VInt (clicks r + Z.of_nat (List.length times)))
    /\ field "last_clicked_at" (project all_columns r')
       = Some (VTime (last times 0)).
Proof.
  intros Hres Hu Hf Hne Hle.
  pose proof (select_by_code_unique c t r Hu Hf) as Hsel.
  destruct (redirect_seq_spec c Hres times t r Hsel Hle) as (t' & E & S & _).
  exists t'. cbv zeta.
  assert (Hlast : last (map Some times) (last_clicked_at r)
                  = Some (last times 0)).
  { destruct times as [|a l]; [congruence|].
    cbn [map]. rewrite !last_cons. clear.
    revert a. induction l as [|b l IH]; intros a; [reflexivity|].
    cbn [map]. rewrite !last_cons. apply IH. }
  rewrite Hlast in S.
  split; [exact E|]. split.
  - unfold get_api_links_code. now rewrite S.
  - split; reflexivity.
Qed.

Lemma redirect_n_times_witness :
  reserved "mycode1" = false
  /\ unique_codes mycode1_table
  /\ find_link "mycode1" mycode1_table = Some mycode1_link
  /\ exists t',
       redirect_seq "mycode1" [5; 6; 7] mycode1_table
       = (repeat (Redirect 302 "https://example.com") 3, t')
       /\ get_api_links_code "mycode1" t'
          = (Json 200
               (JObj (project all_columns (clicked 3 (Some 7) mycode1_link))),
             t')
       /\ field "clicks" (project all_columns (clicked 3 (Some 7) mycode1_link))
          = Some (VInt 3)
       /\ field "last_clicked_at"
            (project all_columns (clicked 3 (Some 7) mycode1_link))
          = Some (VTime 7).
Proof.
  assert (Hu : unique_codes mycode1_table).
  { unfold unique_codes. simpl. constructor; [intros []|constructor]. }
  split; [reflexivity|]. split; [exact Hu|]. split; [reflexivity|].
  apply (redirect_n_times "mycode1" [5; 6; 7] mycode1_table mycode1_link).
  - reflexivity.
  - exact Hu.
  - reflexivity.
  - discriminate.
  - vm_compute. discriminate.
Defined.

Lemma last_repeat_Some {A : Type} (a : A) (k : nat) (d : option A) :
  last (map Some (repeat a (S k))) d = Some a.
Proof.
  revert d. induction k as [|k IH]; intros d; [reflexivity|].
  change (repeat a (S (S k))) with (a :: repeat a (S k)).
  cbn [map]. rewrite last_cons. apply IH.
Qed.

(** C1 fails as stated, twice over.  A link created under the code
    "public" is never redirected to: the request is answered by the
    redirect to the dashboard and the counter stays at 0.  And the
    2147483648-th redirect of a link created with 0 clicks is answered
    with status 500, the counter staying at 2147483647. *)
Lemma redirect_n_times_counterexample :
  (fst (post_api_links isURL_sample
          (mkBody (Some "https://example.com") (Some "public"))
          sample_draws 0 [])
   = Json 201
       (JObj [ ("short_code", VText "public");
               ("original_url", VText "https://example.com");
               ("clicks", VInt 0); ("created_at", VTime 0) ])
   /\ redirect_seq "public" [5] public_table
      = ([Redirect 302 "/"], public_table)
   /\ get_api_links_code "public" public_table
      = (Json 200
           (JObj [ ("short_code", VText "public");
                   ("original_url", VText "https://example.com");
                   ("clicks", VInt 0); ("last_clicked_at", VNull);
                   ("created_at", VTime 0) ]),
         public_table))
  /\ (exists t',
        redirect_seq "mycode1" (repeat 5 (Z.to_nat (INT4_MAX + 1)))
          mycode1_table
        = ((repeat (Redirect 302 "https://example.com") (Z.to_nat INT4_MAX)
            ++ [internal_error])%list, t')
        /\ get_api_links_code "mycode1" t'
           = (Json 200
                (JObj (project all_columns
                         (clicked INT4_MAX (Some 5) mycode1_link))),
              t')).
Proof.
  split.
  - vm_compute. repeat split.
  - assert (H0 : 0 <= INT4_MAX) by (unfold INT4_MAX; lia).
    replace (Z.to_nat (INT4_MAX + 1)) with (S (Z.to_nat INT4_MAX))
      by (rewrite <- Z2Nat.inj_succ by exact H0; reflexivity).
    assert (Hm : Z.of_nat (Z.to_nat INT4_MAX) = INT4_MAX)
      by (apply Z2Nat.id; exact H0).
    remember (Z.to_nat INT4_MAX) as m eqn:Em. clear Em.
    destruct m as [|k]; [unfold INT4_MAX in Hm; simpl in Hm; lia|].
    change (repeat 5 (S (S k))) with (5 :: repeat 5 (S k)).
    rewrite repeat_cons, redirect_seq_app.
    destruct (redirect_seq_spec "mycode1" eq_refl (repeat 5 (S k))
                mycode1_table mycode1_link eq_refl) as (t' & E & S & _).
    { rewrite repeat_length, Hm. unfold mycode1_link. simpl. lia. }
    rewrite repeat_length, Hm, last_repeat_Some in S.
    rewrite repeat_length in E.
    exists t'. rewrite E.
    cbn [redirect_seq].
    rewrite (get_code_overflow "mycode1" 5 t' _ eq_refl S)
      by (unfold clicked, mycode1_link; simpl; lia).
    split; [reflexivity|].
    unfold get_api_links_code. now rewrite S.
Qed.

(* ================================================================== *)
(** ** Redirects in flight together *)
(* ================================================================== *)

Lemma get_code_alone (c : string) (now0 now : Z) (t : table) :
  get_code c now t
  = match redirect_begin c with
    | Responded res => (res, t)
    | k0 =>
        let (k1, t1) := redirect_resume now0 k0 t in
        match k1 with
        | Responded res => (res, t1)
        | _ =>
            match redirect_resume now k1 t1 with
            | (Responded res, t2) => (res, t2)
            | (_, t2) => (internal_error, t2)
            end
        end
    end.
Proof.
  unfold get_code, redirect_begin. destruct (reserved c); [reflexivity|].
  cbn [redirect_resume]. destruct (select_by_code c t) as [|row0 rows];
    [reflexivity|].
  cbn [redirect_resume]. destruct (update_click c now t); reflexivity.
Qed.




Section InFlight.

Variables (c : string) (r : link) (bound : nat).
Hypothesis not_reserved : reserved c = false.
Hypothesis room : clicks r + Z.of_nat bound <= INT4_MAX.





End InFlight.









(* ================================================================== *)
(** ** The invariants of the table *)
(* ================================================================== *)

Lemma select_by_code_nil (c : string) (t : table) :
  select_by_code c t = [] -> ~ In c (map short_code t).
Proof.
  intros Hsel Hin. apply in_map_iff in Hin. destruct Hin as (r & Hc & Hin).
  assert (H : In r (select_by_code c t))
    by (apply select_by_code_In; now split).
  now rewrite Hsel in H.
Qed.

Lemma unique_codes_filter (keep : link -> bool) (t : table) :
  unique_codes t -> unique_codes (filter keep t).
Proof.
  unfold unique_codes. induction t as [|a t IH]; intros Hu; [constructor|].
  cbn [map] in Hu. apply NoDup_cons_iff in Hu. destruct Hu as [Hfresh Hu].
  cbn [filter]. destruct (keep a); [|exact (IH Hu)].
  cbn [map]. apply NoDup_cons; [|exact (IH Hu)].
  contradict Hfresh.
  apply in_map_iff in Hfresh. destruct Hfresh as (r & Hr & Hin).
  rewrite <- Hr. apply in_map. exact (proj1 (proj1 (filter_In _ _ _) Hin)).
Qed.

Lemma store_ok_insert (c u : string) (now : Z) (t t' : table) (r : link) :
  store_ok t -> insert_link c u now t = Some (r, t') ->
  r = mkLink c u 0 None now /\ t' = (t ++ [r])%list /\ store_ok t'.
Proof.
  intros [Hu Hr]. unfold insert_link.
  destruct (has_nul c || has_nul u); [discriminate|].
  destruct (VARCHAR_MAX <? String.length c)%nat; [discriminate|].
  destruct (select_by_code c t) eqn:Hsel; [|discriminate].
  intros [= <- <-]. split; [reflexivity|]. split; [reflexivity|]. split.
  - unfold unique_codes. rewrite map_app. simpl.
    apply Permutation_NoDup with (l := c :: map short_code t).
    + apply Permutation_cons_append.
    + constructor; [now apply select_by_code_nil | exact Hu].
  - apply Forall_app. split; [exact Hr|].
    constructor; [|constructor]. simpl. unfold INT4_MAX. lia.
Qed.

Lemma store_ok_delete (c : string) (t : table) :
  store_ok t -> store_ok (snd (delete_by_code c t)).
Proof.
  intros [Hu Hr]. split.
  - now apply unique_codes_filter.
  - apply Forall_forall. intros r Hin. apply filter_In in Hin.
    now apply (proj1 (Forall_forall _ _) Hr).
Qed.

Lemma store_ok_update (c : string) (now : Z) (t t' : table) :
  store_ok t -> update_click c now t = Some t' -> store_ok t'.
Proof.
  intros [Hu Hr] Hup. unfold update_click in Hup.
  destruct (existsb _ t) eqn:E; [discriminate|].
  injection Hup as <-. split.
  - unfold unique_codes.
    change (map (fun r => if short_code r =? c then click now r else r) t)
      with (map (click_where c now) t).
    now rewrite map_click_where_codes.
  - apply Forall_forall. intros r' Hin. apply in_map_iff in Hin.
    destruct Hin as (r & <- & Hin).
    pose proof (proj1 (Forall_forall _ _) Hr r Hin) as Hb.
    cbv beta in Hb |- *.
    destruct (short_code r =? c) eqn:Ec; [|exact Hb].
    assert (Hm : (INT4_MAX <=? clicks r)%Z = false).
    { destruct (INT4_MAX <=? clicks r)%Z eqn:El; [|reflexivity].
      exfalso.
      assert (Hex : existsb
                (fun r => (short_code r =? c) && (INT4_MAX <=? clicks r)%Z) t
              = true).
      { apply existsb_exists. exists r. split; [exact Hin|].
        now rewrite Ec, El. }
      congruence. }
    apply Z.leb_gt in Hm. unfold click. cbn [clicks]. lia.
Qed.

Lemma find_link_app (c : string) (t1 t2 : table) (r : link) :
  find_link c t1 = Some r -> find_link c (t1 ++ t2)%list = Some r.
Proof.
  unfold find_link. rewrite select_by_code_app.
  now destruct (select_by_code c t1).
Qed.

Lemma select_by_code_delete (c c' : string) (t : table) :
  select_by_code c (snd (delete_by_code c' t))
  = if c =? c' then [] else select_by_code c t.
Proof.
  unfold delete_by_code, select_by_code. cbn [snd].
  induction t as [|a t IH]; simpl; [now destruct (c =? c')|].
  destruct (short_code a =? c') eqn:E1; simpl.
  - rewrite IH. destruct (c =? c') eqn:E2; [reflexivity|].
    destruct (short_code a =? c) eqn:E3; [|reflexivity].
    apply String.eqb_eq in E1, E3. subst. now rewrite String.eqb_refl in E2.
  - rewrite IH. destruct (c =? c') eqn:E2; [|reflexivity].
    apply String.eqb_eq in E2. subst. now rewrite E1.
Qed.

Lemma not_redirected_json (rq : request) (status : Z) (body : json)
  (c : string) :
  ~ redirected rq (Json status body) c.
Proof. intros (_ & _ & u & H). discriminate. Qed.

Lemma unchanged_clicks (rq : request) (res : response) (t : table) :
  (forall c, ~ redirected rq res c) ->
  forall c r r',
    find_link c t = Some r -> find_link c t = Some r' ->
    (redirected rq res c /\ clicks r' = clicks r + 1)
    \/ (~ redirected rq res c /\ clicks r' = clicks r).
Proof.
  intros Hn c r r' H1 H2. right. split; [apply Hn | congruence].
Qed.

(** The request left the table alone and was not a redirect. *)
Ltac untouched H Hok :=
  injection H as <- <-; split; [exact Hok|];
  apply unchanged_clicks; intros c;
  first [ apply not_redirected_json | intros (E & _); discriminate ].

(** C7.  Whatever request the server handles on a table whose codes are
    unique and whose counters are non-negative [INTEGER]s, the table it
    leaves has the same two properties; and the counter of any link that
    is there before and after is one higher when the request was a
    redirect to that link, and otherwise the same. *)
Theorem handle_preserves_invariants (isURL : string -> bool)
  (rq : request) (now : Z) (t : table) (res : response) (t' : table) :
  store_ok t ->
  handle isURL rq now t = (res, t') ->
  store_ok t'
  /\ forall c r r',
       find_link c t = Some r -> find_link c t' = Some r' ->
       (redirected rq res c /\ clicks r' = clicks r + 1)
       \/ (~ redirected rq res c /\ clicks r' = clicks r).
Proof.
  intros Hok H.
  destruct rq as [c0| |c0|req rand|c0]; cbn [handle] in H.
  - (* GET /:code *)
    unfold get_code in H. destruct (reserved c0) eqn:Hres.
    { injection H as <- <-. split; [exact Hok|].
      apply unchanged_clicks. intros c (E & Hc & _).
      injection E as ->. congruence. }
    destruct (select_by_code c0 t) as [|row0 rows] eqn:Hsel.
    { untouched H Hok. }
    destruct (update_click c0 now t) as [t1|] eqn:Hup.
    2:{ untouched H Hok. }
    injection H as <- <-. split; [exact (store_ok_update _ _ _ _ Hok Hup)|].
    apply update_click_inv in Hup. subst t1.
    intros c r r' Hf Hf'. unfold find_link in Hf'.
    rewrite select_by_code_click_where in Hf'.
    destruct (c =? c0) eqn:E.
    + apply String.eqb_eq in E. subst c0. left.
      unfold find_link in Hf. rewrite Hsel in Hf, Hf'.
      cbn in Hf, Hf'. injection Hf as <-. injection Hf' as <-.
      split; [|reflexivity].
      split; [reflexivity|]. split; [exact Hres|]. now eexists.
    + right. split; [|unfold find_link in Hf; congruence].
      intros (E' & _). injection E' as ->.
      now rewrite String.eqb_refl in E.
  - (* GET /api/links *)
    untouched H Hok.
  - (* GET /api/links/:code *)
    unfold get_api_links_code in H.
    destruct (select_by_code c0 t); untouched H Hok.
  - (* POST /api/links *)
    assert (Hins : forall code u,
               insert_unless_exists code u now t = (res, t') ->
               store_ok t'
               /\ forall c r r',
                    find_link c t = Some r -> find_link c t' = Some r' ->
                    (redirected (POST_api_links req rand) res c
                     /\ clicks r' = clicks r + 1)
                    \/ (~ redirected (POST_api_links req rand) res c
                        /\ clicks r' = clicks r)).
    { intros code u Hi. unfold insert_unless_exists in Hi.
      destruct (select_by_code code t).
      2:{ untouched Hi Hok. }
      destruct (insert_link code u now t) as [[row0 t1]|] eqn:Hins.
      2:{ untouched Hi Hok. }
      injection Hi as <- <-.
      destruct (store_ok_insert _ _ _ _ _ _ Hok Hins) as (_ & -> & Hok').
      split; [exact Hok'|].
      intros c r r' Hf Hf'. right. split; [intros (E & _); discriminate|].
      rewrite (find_link_app c t [row0] r Hf) in Hf'. congruence. }
    unfold post_api_links in H.
    destruct (falsy (url req) || negb (isURL (text (url req)))).
    { untouched H Hok. }
    cbv zeta in H.
    destruct (falsy (customCode req)); [exact (Hins _ _ H)|].
    destruct (negb (code_pattern_test (text (customCode req))));
      [|exact (Hins _ _ H)].
    untouched H Hok.
  - (* DELETE /api/links/:code *)
    unfold delete_api_links_code in H.
    pose proof (store_ok_delete c0 t Hok) as Hok'.
    pose proof (fun c => select_by_code_delete c c0 t) as Hd.
    destruct (delete_by_code c0 t) as [[|d ds] t1]; cbn [snd] in Hok', Hd.
    { untouched H Hok. }
    injection H as <- <-. split; [exact Hok'|].
    intros c r r' Hf Hf'. right. split; [intros (E & _); discriminate|].
    unfold find_link in Hf, Hf'. rewrite Hd in Hf'.
    destruct (c =? c0); [discriminate | congruence].
Qed.

Lemma mycode1_table_ok : store_ok mycode1_table.
Proof.
  split.
  - unfold unique_codes. simpl. constructor; [intros []|constructor].
  - constructor; [|constructor]. vm_compute. split; discriminate.
Defined.

Lemma handle_preserves_invariants_witness :
  store_ok mycode1_table
  /\ handle isURL_sample (GET_code "mycode1") 5 mycode1_table
     = (Redirect 302 "https://example.com", [clicked 1 (Some 5) mycode1_link])
  /\ store_ok [clicked 1 (Some 5) mycode1_link].
Proof.
  split; [exact mycode1_table_ok|]. split; [reflexivity|].
  exact (proj1 (handle_preserves_invariants isURL_sample (GET_code "mycode1")
                  5 mycode1_table _ _ mycode1_table_ok eq_refl)).
Defined.

(* ================================================================== *)
(** ** Listing *)
(* ================================================================== *)

Lemma insert_desc_perm (r : link) (l : list link) :
  Permutation (insert_desc r l) (r :: l).
Proof.
  induction l as [|x l IH]; simpl; [reflexivity|].
  destruct (created_at x <=? created_at r)%Z; [reflexivity|].
  rewrite IH. apply perm_swap.
Qed.

Lemma order_by_created_desc_perm (l : list link) :
  Permutation (order_by_created_desc l) l.
Proof.
  induction l as [|r l IH]; simpl; [reflexivity|].
  rewrite insert_desc_perm. now constructor.
Qed.

Lemma insert_desc_sorted (r : link) (l : list link) :
  StronglySorted newer_first l -> StronglySorted newer_first (insert_desc r l).
Proof.
  induction l as [|x l IH]; simpl; intros Hs.
  - constructor; constructor.
  - inversion Hs as [|y l0 Hl Hx]; subst.
    destruct (created_at x <=? created_at r)%Z eqn:E.
    + apply Z.leb_le in E. constructor; [exact Hs|].
      constructor; [exact E|].
      apply Forall_forall. intros z Hz.
      pose proof (proj1 (Forall_forall _ _) Hx z Hz) as Hxz.
      unfold newer_first in *. lia.
    + apply Z.leb_gt in E. constructor; [now apply IH|].
      apply Forall_forall. intros z Hz.
      apply (Permutation_in _ (insert_desc_perm r l)) in Hz.
      destruct Hz as [<-|Hz].
      * unfold newer_first. lia.
      * exact (proj1 (Forall_forall _ _) Hx z Hz).
Qed.

Lemma order_by_created_desc_sorted (l : list link) :
  StronglySorted newer_first (order_by_created_desc l).
Proof.
  induction l as [|r l IH]; simpl; [constructor|].
  now apply insert_desc_sorted.
Qed.

(** C9, as the handler has it.  When the database answers the query,
    [GET /api/links] answers 200 and leaves the table as it was; the body
    lists exactly the rows of the table, each with its five columns, in
    an order in which no row stands before a row created later, and on
    the empty table it is the empty array.  When the query fails, the
    handler's [catch] answers 500. *)
Theorem get_api_links_newest_first (t : table) :
  (exists rows,
      get_api_links_db true t
      = (Json 200
           (JArr (map (fun r =>
                         [ ("short_code", VText (short_code r));
                           ("original_url", VText (original_url r));
                           ("clicks", VInt (clicks r));
                           ("last_clicked_at",
                             match last_clicked_at r with
                             | Some ts => VTime ts
                             | None => VNull
                             end);
                           ("created_at", VTime (created_at r)) ])
                      rows)),
         t)
      /\ Permutation rows t
      /\ StronglySorted newer_first rows)
  /\ get_api_links_db true [] = (Json 200 (JArr []), [])
  /\ get_api_links_db false t = (Json 500 (error "Internal server error"), t).
Proof.
  split; [|split; reflexivity].
  exists (order_by_created_desc t). split; [reflexivity|]. split.
  - apply order_by_created_desc_perm.
  - apply order_by_created_desc_sorted.
Qed.

(** C9 fails as stated: when the database cannot be reached the listing
    does not succeed; the request is answered 500. *)
Lemma get_api_links_newest_first_counterexample :
  get_api_links_db false mycode1_table
  = (Json 500 (error "Internal server error"), mycode1_table).
Proof. reflexivity. Qed.

(* ================================================================== *)
(** ** Creating and deleting *)
(* ================================================================== *)

Lemma code_pattern_length (s : string) :
  code_pattern_test s = true -> (6 <= String.length s <= 8)%nat.
Proof.
  unfold code_pattern_test. intros H.
  apply andb_prop in H. destruct H as [H H8].
  apply andb_prop in H. destruct H as [_ H6].
  apply Nat.leb_le in H6, H8. lia.
Qed.





Lemma select_by_code_inserted (c u : string) (now : Z) (t : table) :
  select_by_code c t = [] ->
  select_by_code c (t ++ [mkLink c u 0 None now])%list
  = [mkLink c u 0 None now].
Proof.
  intros Hsel. rewrite select_by_code_app, Hsel. unfold select_by_code.
  cbn [filter short_code]. now rewrite String.eqb_refl.
Qed.






Lemma generateShortCode_valid_witness :
  unit_draws sample_draws
  /\ generateShortCode sample_draws = "UPMKIHG"
  /\ code_pattern_test (generateShortCode sample_draws) = true.
Proof.
  split; [exact sample_draws_unit|]. split; [vm_compute; reflexivity|].
  exact (proj2 (proj2 (proj2 (generateShortCode_valid sample_draws
                                sample_draws_unit)))).
Defined.




(** C3.  When [POST /api/links] with a custom code [c], which the handler
    takes as a code only when it is not the empty string, has answered
    201, the next [POST /api/links] with the same custom code and any
    destination the validator accepts is answered 409, and the table,
    with the link created first, stays as it is. *)
Theorem post_api_links_conflict (isURL : string -> bool) (u u2 c : string)
  (rand rand2 : nat -> Q) (now now2 : Z) (t t1 : table) (body : json) :
  c <> "" ->
  post_api_links isURL (mkBody (Some u) (Some c)) rand now t
  = (Json 201 body, t1) ->
  u2 <> "" -> isURL u2 = true ->
  post_api_links isURL (mkBody (Some u2) (Some c)) rand2 now2 t1
  = (Json 409 (error "409 Custom code already exists"), t1)
  /\ find_link c t1 = Some (mkLink c u 0 None now).
Proof.
  intros Hc H Hne2 Hv2.
  assert (Hf : falsy (Some c) = false)
    by (cbn [falsy]; now apply String.eqb_neq).
  unfold post_api_links in H. cbn [url customCode] in H.
  destruct (falsy (Some u) || negb (isURL (text (Some u))));
    [discriminate|].
  cbv zeta in H. rewrite Hf in H. cbn [text] in H.
  destruct (code_pattern_test c) eqn:Hpat; cbn [negb] in H;
    [|discriminate].
  unfold insert_unless_exists in H.
  destruct (select_by_code c t) eqn:Hsel; [|discriminate].
  unfold insert_link in H. rewrite Hsel in H.
  destruct (has_nul c || has_nul u); [discriminate|].
  destruct (VARCHAR_MAX <? String.length c)%nat; [discriminate|].
  injection H as _ <-.
  pose proof (select_by_code_inserted c u now t Hsel) as Hsel1.
  split.
  - unfold post_api_links. cbn [url customCode falsy text].
    rewrite (proj2 (String.eqb_neq u2 "") Hne2), Hv2.
    cbn [negb orb]. cbv zeta.
    rewrite (proj2 (String.eqb_neq c "") Hc), Hpat. cbn [negb].
    unfold insert_unless_exists. now rewrite Hsel1.
  - unfold find_link. now rewrite Hsel1.
Qed.

Lemma post_api_links_conflict_witness :
  post_api_links isURL_sample
    (mkBody (Some "https://example.com") (Some "mycode1")) sample_draws 0 []
  = (Json 201
       (JObj [ ("short_code", VText "mycode1");
               ("original_url", VText "https://example.com");
               ("clicks", VInt 0); ("created_at", VTime 0) ]),
     mycode1_table)
  /\ post_api_links isURL_sample
       (mkBody (Some "http://x.com") (Some "mycode1")) sample_draws 3
       mycode1_table
     = (Json 409 (error "409 Custom code already exists"), mycode1_table).
Proof.
  split; [reflexivity|].
  apply (post_api_links_conflict isURL_sample "https://example.com"
           "http://x.com" "mycode1" sample_draws sample_draws 0 3 []
           mycode1_table
           (JObj [ ("short_code", VText "mycode1");
                   ("original_url", VText "https://example.com");
                   ("clicks", VInt 0); ("created_at", VTime 0) ])).
  - discriminate.
  - reflexivity.
  - discriminate.
  - reflexivity.
Defined.










Lemma delete_api_links_code_found (c : string) (t : table) (r : link) :
  find_link c t = Some r ->
  delete_api_links_code c t
  = (Json 200 (message "Link deleted successfully"),
     snd (delete_by_code c t)).
Proof.
  unfold find_link, delete_api_links_code, delete_by_code. cbn [snd].
  destruct (select_by_code c t); [discriminate | reflexivity].
Qed.





(* ================================================================== *)
(** ** Further properties of the handlers *)
(* ================================================================== *)



Lemma insert_link_inv (c u : string) (now : Z) (t t' : table) (row0 : link) :
  insert_link c u now t = Some (row0, t') ->
  row0 = mkLink c u 0 None now
  /\ t' = (t ++ [row0])%list
  /\ select_by_code c t = [].
Proof.
  unfold insert_link.
  destruct (has_nul c || has_nul u); [discriminate|].
  destruct (VARCHAR_MAX <? String.length c)%nat; [discriminate|].
  destruct (select_by_code c t); [|discriminate].
  intros [= <- <-]. auto.
Qed.

(** What a request can do to the table: nothing, the click [UPDATE] of a
    redirect, the one row of a create, or the removal of a delete. *)
Lemma handle_effect (isURL : string -> bool) (rq : request) (now : Z)
  (t : table) (res : response) (t' : table) :
  handle isURL rq now t = (res, t') ->
  (t' = t /\ forall c, ~ redirected rq res c)
  \/ (exists c0 row0,
        rq = GET_code c0 /\ reserved c0 = false
        /\ find_link c0 t = Some row0
        /\ res = Redirect 302 (original_url row0)
        /\ t' = map (click_where c0 now) t)
  \/ (exists req rand,
        rq = POST_api_links req rand
        /\ select_by_code (chosen_code req rand) t = []
        /\ t' = (t ++ [mkLink (chosen_code req rand) (text (url req)) 0 None
                              now])%list)
  \/ (exists c0,
        rq = DELETE_api_links_code c0
        /\ t' = snd (delete_by_code c0 t)).
Proof.
  intros H. destruct rq as [c0| |c0|req rand|c0]; cbn [handle] in H.
  - unfold get_code in H. destruct (reserved c0) eqn:Hres.
    { injection H as <- <-. left. split; [reflexivity|].
      intros c (E & Hc & _). injection E as ->. congruence. }
    destruct (select_by_code c0 t) as [|row0 rows] eqn:Hsel.
    { injection H as <- <-. left. split; [reflexivity|].
      intros c. apply not_redirected_json. }
    destruct (update_click c0 now t) as [t1|] eqn:Hup.
    2:{ injection H as <- <-. left. split; [reflexivity|].
        intros c. apply not_redirected_json. }
    injection H as <- <-. right. left. exists c0, row0.
    apply update_click_inv in Hup. unfold find_link. rewrite Hsel. auto.
  - injection H as <- <-. left. split; [reflexivity|].
    intros c (E & _). discriminate.
  - unfold get_api_links_code in H.
    destruct (select_by_code c0 t); injection H as <- <-; left;
      (split; [reflexivity|]); intros c (E & _); discriminate.
  - assert (Hins : forall code,
               code = chosen_code req rand ->
               insert_unless_exists code (text (url req)) now t = (res, t') ->
               (t' = t /\ forall c, ~ redirected (POST_api_links req rand) res c)
               \/ (select_by_code (chosen_code req rand) t = []
                   /\ t' = (t ++ [mkLink (chosen_code req rand)
                                         (text (url req)) 0 None now])%list)).
    { intros code -> Hi. unfold insert_unless_exists in Hi.
      destruct (select_by_code (chosen_code req rand) t) eqn:Hsel.
      2:{ injection Hi as <- <-. left. split; [reflexivity|].
          intros c (E & _). discriminate. }
      destruct (insert_link _ _ now t) as [[row0 t1]|] eqn:Hi1.
      2:{ injection Hi as <- <-. left. split; [reflexivity|].
          intros c (E & _). discriminate. }
      injection Hi as <- <-.
      destruct (insert_link_inv _ _ _ _ _ _ Hi1) as (-> & -> & _).
      right. auto. }
    unfold post_api_links in H.
    destruct (falsy (url req) || negb (isURL (text (url req)))).
    { injection H as <- <-. left. split; [reflexivity|].
      intros c (E & _). discriminate. }
    cbv zeta in H. unfold chosen_code in Hins.
    destruct (falsy (customCode req)) eqn:Hf.
    { destruct (Hins _ eq_refl H) as [Hs | [Hs Ht]]; [now left|].
      right. right. left. exists req, rand. unfold chosen_code.
      rewrite Hf. auto. }
    destruct (negb (code_pattern_test (text (customCode req)))).
    { injection H as <- <-. left. split; [reflexivity|].
      intros c (E & _). discriminate. }
    destruct (Hins _ eq_refl H) as [Hs | [Hs Ht]]; [now left|].
    right. right. left. exists req, rand. unfold chosen_code.
    rewrite Hf. auto.
  - unfold delete_api_links_code in H.
    destruct (delete_by_code c0 t) as [[|d ds] t1] eqn:Hd.
    { injection H as <- <-. left. split; [reflexivity|].
      intros c (E & _). discriminate. }
    injection H as <- <-. right. right. right. exists c0.
    now rewrite Hd.
Qed.

Lemma find_link_click_where (c c0 : string) (now : Z) (t : table) :
  find_link c (map (click_where c0 now) t)
  = if c =? c0 then option_map (click now) (find_link c t)
    else find_link c t.
Proof.
  unfold find_link. rewrite select_by_code_click_where.
  destruct (c =? c0) eqn:E; [|reflexivity].
  apply String.eqb_eq in E. subst c0. now destruct (select_by_code c t).
Qed.

Lemma find_link_delete (c c0 : string) (t : table) :
  find_link c (snd (delete_by_code c0 t))
  = if c =? c0 then None else find_link c t.
Proof.
  unfold find_link. rewrite select_by_code_delete. now destruct (c =? c0).
Qed.

(** X2.  No request changes the code, the destination or the creation
    time of a link that is there before and after it; and the time of the
    last click changes only when the request is answered by the redirect
    to that link, to the time of that request. *)
Theorem handle_keeps_identity (isURL : string -> bool) (rq : request)
  (now : Z) (t : table) (res : response) (t' : table) (c : string)
  (r r' : link) :
  handle isURL rq now t = (res, t') ->
  find_link c t = Some r ->
  find_link c t' = Some r' ->
  short_code r' = short_code r
  /\ original_url r' = original_url r
  /\ created_at r' = created_at r
  /\ ((~ redirected rq res c /\ last_clicked_at r' = last_clicked_at r)
      \/ (redirected rq res c /\ last_clicked_at r' = Some now)).
Proof.
  intros H Hf Hf'.
  destruct (handle_effect isURL rq now t res t' H)
    as [[-> Hn] | [(c0 & row0 & -> & Hres & Hrow & -> & ->)
       | [(req & rand & -> & Hsel & ->) | (c0 & -> & ->)]]].
  - assert (r' = r) by congruence. subst r'.
    repeat split. left. split; [apply Hn | reflexivity].
  - rewrite find_link_click_where in Hf'.
    destruct (c =? c0) eqn:E.
    + apply String.eqb_eq in E. subst c0. rewrite Hf in Hf'.
      injection Hf' as <-. repeat split. right.
      split; [|reflexivity].
      split; [reflexivity|]. split; [exact Hres|]. now eexists.
    + assert (r' = r) by congruence. subst r'. repeat split. left.
      split; [|reflexivity].
      intros (E' & _). injection E' as ->. now rewrite String.eqb_refl in E.
  - rewrite (find_link_app c t _ r Hf) in Hf'.
    injection Hf' as <-. repeat split. left.
    split; [intros (E & _); discriminate | reflexivity].
  - rewrite find_link_delete in Hf'.
    destruct (c =? c0); [discriminate|].
    assert (r' = r) by congruence. subst r'. repeat split. left.
    split; [intros (E & _); discriminate | reflexivity].
Qed.

Lemma handle_keeps_identity_witness :
  handle isURL_sample (GET_code "mycode1") 5 mycode1_table
  = (Redirect 302 "https://example.com", [clicked 1 (Some 5) mycode1_link])
  /\ original_url (clicked 1 (Some 5) mycode1_link)
     = original_url mycode1_link
  /\ created_at (clicked 1 (Some 5) mycode1_link) = created_at mycode1_link.
Proof.
  split; [reflexivity|].
  pose proof (handle_keeps_identity isURL_sample (GET_code "mycode1") 5
                mycode1_table _ _ "mycode1" mycode1_link
                (clicked 1 (Some 5) mycode1_link) eq_refl eq_refl eq_refl)
    as H.
  split; [exact (proj1 (proj2 H)) | exact (proj1 (proj2 (proj2 H)))].
Defined.

(** X3.  A request leaves every link with another code than the one it is
    about exactly as it was; the two reading routes leave the whole table
    as it was. *)
Theorem handle_frame (isURL : string -> bool) (rq : request) (now : Z)
  (t : table) (c : string) :
  addressed rq <> Some c ->
  select_by_code c (snd (handle isURL rq now t)) = select_by_code c t
  /\ (rq = GET_api_links \/ (exists c0, rq = GET_api_links_code c0) ->
      snd (handle isURL rq now t) = t).
Proof.
  intros Hc. split.
  - destruct (handle isURL rq now t) as [res t'] eqn:H. cbn [snd].
    destruct (handle_effect isURL rq now t res t' H)
      as [[-> Hn] | [(c0 & row0 & -> & Hres & Hrow & -> & ->)
         | [(req & rand & -> & Hsel & ->) | (c0 & -> & ->)]]].
    + reflexivity.
    + rewrite select_by_code_click_where.
      destruct (c =? c0) eqn:E; [|reflexivity].
      apply String.eqb_eq in E. subst c0. now elim Hc.
    + rewrite select_by_code_app. unfold select_by_code at 2.
      cbn [filter short_code].
      destruct (chosen_code req rand =? c) eqn:E.
      * apply String.eqb_eq in E. cbn [addressed] in Hc. congruence.
      * apply app_nil_r.
    + rewrite select_by_code_delete.
      destruct (c =? c0) eqn:E; [|reflexivity].
      apply String.eqb_eq in E. subst c0. now elim Hc.
  - intros [-> | (c0 & ->)]; [reflexivity|].
    cbn [handle]. unfold get_api_links_code.
    now destruct (select_by_code c0 t).
Qed.

Lemma handle_frame_witness :
  addressed (DELETE_api_links_code "docs") <> Some "google"
  /\ select_by_code "google"
       (snd (handle isURL_sample (DELETE_api_links_code "docs") 4
               seeded_table))
     = select_by_code "google" seeded_table.
Proof.
  assert (H : addressed (DELETE_api_links_code "docs") <> Some "google")
    by discriminate.
  split; [exact H|].
  exact (proj1 (handle_frame isURL_sample (DELETE_api_links_code "docs") 4
                  seeded_table "google" H)).
Defined.

Lemma chronological_later (now0 now : Z) (t : table) :
  chronological now0 t -> now0 <= now -> chronological now t.
Proof.
  unfold chronological. intros H Hle.
  apply Forall_forall. intros r Hin.
  pose proof (proj1 (Forall_forall _ _) H r Hin) as [Hc Hl].
  split; [lia|]. destruct (last_clicked_at r); [lia | exact I].
Qed.

(** X4.  As long as the clock of the database does not run backwards, no
    request makes a link that was clicked before it was created, or
    created or clicked in the future: if that holds of the table at time
    [now0], it holds at any later time [now] of the table a request at
    [now] leaves. *)
Theorem handle_chronological (isURL : string -> bool) (rq : request)
  (now0 now : Z) (t : table) :
  chronological now0 t ->
  now0 <= now ->
  chronological now (snd (handle isURL rq now t)).
Proof.
  intros Hch Hle.
  pose proof (chronological_later now0 now t Hch Hle) as Hnow.
  destruct (handle isURL rq now t) as [res t'] eqn:H. cbn [snd].
  destruct (handle_effect isURL rq now t res t' H)
    as [[-> Hn] | [(c0 & row0 & -> & Hres & Hrow & -> & ->)
       | [(req & rand & -> & Hsel & ->) | (c0 & -> & ->)]]].
  - exact Hnow.
  - unfold chronological in *. apply Forall_forall. intros r' Hin.
    apply in_map_iff in Hin. destruct Hin as (r & <- & Hin).
    pose proof (proj1 (Forall_forall _ _) Hnow r Hin) as [Hc Hl].
    unfold click_where. destruct (short_code r =? c0); [|now split].
    unfold click. cbn [created_at last_clicked_at]. lia.
  - unfold chronological in *. apply Forall_app. split; [exact Hnow|].
    constructor; [|constructor]. cbn [created_at last_clicked_at].
    split; [lia | exact I].
  - unfold chronological in *. apply Forall_forall. intros r Hin.
    apply filter_In in Hin.
    exact (proj1 (Forall_forall _ _) Hnow r (proj1 Hin)).
Qed.

Lemma handle_chronological_witness :
  chronological 0 mycode1_table
  /\ chronological 5
       (snd (handle isURL_sample (GET_code "mycode1") 5 mycode1_table)).
Proof.
  assert (H : chronological 0 mycode1_table).
  { constructor; [|constructor]. cbn. split; [lia | exact I]. }
  split; [exact H|].
  apply (handle_chronological isURL_sample (GET_code "mycode1") 0 5
           mycode1_table H).
  lia.
Defined.

Lemma partition_by_code (c : string) (t : table) :
  Permutation t (select_by_code c t ++ snd (delete_by_code c t))%list.
Proof.
  unfold select_by_code, delete_by_code. cbn [snd].
  induction t as [|a t IH]; cbn [filter]; [constructor|].
  destruct (short_code a =? c); cbn [negb app].
  - now constructor.
  - now apply Permutation_cons_app.
Qed.

(** X5.  After [DELETE /api/links/c] has removed the link of an existing
    code [c] from a table with unique codes, exactly that one row is gone:
    the rest of the table is as before.  [GET /api/links/c] then answers
    404, no row of the listing carries the code, and [GET /c], when [c] is
    not a reserved name, answers 404 without touching the table. *)
Theorem delete_removes_link (c : string) (now : Z) (t : table) (r : link) :
  unique_codes t ->
  find_link c t = Some r ->
  let t1 := snd (delete_api_links_code c t) in
  Permutation t (r :: t1)
  /\ get_api_links_code c t1 = (Json 404 (error "Link not found"), t1)
  /\ (forall o, In o (rows_of (fst (get_api_links t1))) ->
                field "short_code" o <> Some (VText c))
  /\ (reserved c = false ->
      get_code c now t1 = (Json 404 (error "Short URL not found"), t1)).
Proof.
  intros Hu Hf t1.
  assert (Ht1 : t1 = snd (delete_by_code c t)).
  { unfold t1. now rewrite (delete_api_links_code_found c t r Hf). }
  assert (Hgone : select_by_code c t1 = []).
  { rewrite Ht1, select_by_code_delete. now rewrite String.eqb_refl. }
  split; [|split; [|split]].
  - rewrite Ht1.
    pose proof (partition_by_code c t) as Hp.
    now rewrite (select_by_code_unique c t r Hu Hf) in Hp.
  - unfold get_api_links_code. now rewrite Hgone.
  - unfold get_api_links, get_api_links_db, select_newest_first.
    cbn [fst rows_of]. intros o Ho.
    apply in_map_iff in Ho. destruct Ho as (x & <- & Hx).
    apply (Permutation_in _ (order_by_created_desc_perm t1)) in Hx.
    cbn. intros [= Hc].
    assert (Hin : In x (select_by_code c t1))
      by (apply select_by_code_In; now split).
    now rewrite Hgone in Hin.
  - intros Hres. unfold get_code. now rewrite Hres, Hgone.
Qed.

Lemma delete_removes_link_witness :
  unique_codes mycode1_table
  /\ find_link "mycode1" mycode1_table = Some mycode1_link
  /\ get_api_links_code "mycode1"
       (snd (delete_api_links_code "mycode1" mycode1_table))
     = (Json 404 (error "Link not found"),
        snd (delete_api_links_code "mycode1" mycode1_table)).
Proof.
  split; [exact (proj1 mycode1_table_ok)|]. split; [reflexivity|].
  exact (proj1 (proj2 (delete_removes_link "mycode1" 0 mycode1_table
                         mycode1_link (proj1 mycode1_table_ok) eq_refl))).
Defined.



Lemma newest_first_head (x : link) (rows t : list link) :
  Forall (fun r => created_at r < created_at x) t ->
  Permutation rows (t ++ [x])%list ->
  StronglySorted newer_first rows ->
  exists rest, rows = x :: rest /\ Permutation rest t.
Proof.
  intros Hlt Hperm Hsorted.
  assert (Hin : In x rows).
  { apply (Permutation_in x (Permutation_sym Hperm)).
    apply in_or_app. right. now left. }
  destruct rows as [|y rest]; [destruct Hin|].
  assert (Hy : y = x).
  { destruct Hin as [E | Hin]; [exact E|].
    apply StronglySorted_inv in Hsorted. destruct Hsorted as [_ Hall].
    pose proof (proj1 (Forall_forall _ _) Hall x Hin) as Hxy.
    unfold newer_first in Hxy.
    assert (Hyin : In y (t ++ [x])%list)
      by (apply (Permutation_in y Hperm); now left).
    apply in_app_or in Hyin. destruct Hyin as [Hyt | [E | []]];
      [|now symmetry].
    pose proof (proj1 (Forall_forall _ _) Hlt y Hyt) as Hyx.
    cbv beta in Hxy, Hyx. lia. }
  subst y. exists rest. split; [reflexivity|].
  apply (Permutation_cons_inv (a := x)).
  apply (Permutation_trans Hperm). apply Permutation_sym.
  apply Permutation_cons_append.
Qed.

(** X7.  A link created later than every link of the table is listed
    first: [GET /api/links] on the table with the new row answers with
    the new row, with its five columns, followed by the rows it listed
    before, in an order of theirs. *)
Theorem get_api_links_after_create (c u : string) (now : Z) (t : table) :
  Forall (fun r => created_at r < now) t ->
  exists rest,
    rows_of (fst (get_api_links (t ++ [mkLink c u 0 None now])%list))
    = [ ("short_code", VText c); ("original_url", VText u);
        ("clicks", VInt 0); ("last_clicked_at", VNull);
        ("created_at", VTime now) ]
      :: rest
    /\ Permutation rest (rows_of (fst (get_api_links t))).
Proof.
  intros H.
  destruct (newest_first_head (mkLink c u 0 None now)
              (order_by_created_desc (t ++ [mkLink c u 0 None now])%list) t)
    as (rest & E & Hp).
  - exact H.
  - apply order_by_created_desc_perm.
  - apply order_by_created_desc_sorted.
  - exists (map (project all_columns) rest). split.
    + unfold get_api_links, get_api_links_db, select_newest_first.
      cbn [fst rows_of]. rewrite E. reflexivity.
    + unfold get_api_links, get_api_links_db, select_newest_first.
      cbn [fst rows_of]. apply Permutation_map.
      apply (Permutation_trans Hp). apply Permutation_sym.
      apply order_by_created_desc_perm.
Qed.

Lemma get_api_links_after_create_witness :
  Forall (fun r => created_at r < 3) mycode1_table
  /\ exists rest,
       rows_of (fst (get_api_links
                       (mycode1_table ++ [mkLink "abcdef" "http://x.com" 0
                                                 None 3])%list))
       = [ ("short_code", VText "abcdef");
           ("original_url", VText "http://x.com");
           ("clicks", VInt 0); ("last_clicked_at", VNull);
           ("created_at", VTime 3) ]
         :: rest
       /\ Permutation rest (rows_of (fst (get_api_links mycode1_table))).
Proof.
  assert (H : Forall (fun r => created_at r < 3) mycode1_table).
  { constructor; [|constructor]. cbn. lia. }
  split; [exact H|].
  exact (get_api_links_after_create "abcdef" "http://x.com" 3
           mycode1_table H).
Defined.

(** X8.  The listing and the lookup agree on a table with unique codes:
    [GET /api/links] lists as many rows as the table has, and each row it
    lists is the body [GET /api/links/:code] answers with for the code of
    that row. *)
Theorem listing_agrees_with_lookup (t : table) :
  unique_codes t ->
  List.length (rows_of (fst (get_api_links t))) = List.length t
  /\ forall o,
       In o (rows_of (fst (get_api_links t))) ->
       exists c,
         field "short_code" o = Some (VText c)
         /\ get_api_links_code c t = (Json 200 (JObj o), t).
Proof.
  intros Hu. unfold get_api_links, get_api_links_db, select_newest_first.
  cbn [fst rows_of]. split.
  - rewrite length_map.
    apply Permutation_length, order_by_created_desc_perm.
  - intros o Ho. apply in_map_iff in Ho. destruct Ho as (r & <- & Hr).
    apply (Permutation_in _ (order_by_created_desc_perm t)) in Hr.
    exists (short_code r). split; [reflexivity|].
    assert (Hin : In r (select_by_code (short_code r) t))
      by (apply select_by_code_In; now split).
    unfold get_api_links_code.
    destruct (select_by_code (short_code r) t) as [|r0 rs] eqn:Hsel;
      [destruct Hin|].
    assert (Hf : find_link (short_code r) t = Some r0)
      by (unfold find_link; now rewrite Hsel).
    pose proof (select_by_code_unique _ _ _ Hu Hf) as Hone.
    rewrite Hsel in Hone. injection Hone as ->.
    destruct Hin as [<-|[]]. reflexivity.
Qed.

Lemma listing_agrees_with_lookup_witness :
  unique_codes mycode1_table
  /\ List.length (rows_of (fst (get_api_links mycode1_table))) = 1%nat.
Proof.
  split; [exact (proj1 mycode1_table_ok)|].
  exact (proj1 (listing_agrees_with_lookup mycode1_table
                  (proj1 mycode1_table_ok))).
Defined.

(** X9.  On a table with unique codes and counters in range, [GET /:code]
    for a code without the character 0 answers 500 in exactly one
    situation: the code is not a reserved name and the counter of its
    link stands at 2147483647.  The table is then left as it was.  (A
    code with the character 0 is refused by the database as a parameter
    of the [SELECT].) *)
Theorem get_code_internal_error (c : string) (now : Z) (t : table) :
  store_ok t ->
  has_nul c = false ->
  (status_of (fst (get_code c now t)) = 500
   <-> reserved c = false
       /\ exists r, find_link c t = Some r /\ clicks r = INT4_MAX)
  /\ (status_of (fst (get_code c now t)) = 500 ->
      snd (get_code c now t) = t).
Proof.
  intros [Hu Hr] _. unfold get_code.
  destruct (reserved c) eqn:Hres.
  { cbn. split; [|reflexivity]. split; [discriminate | intros [H _]; discriminate]. }
  destruct (select_by_code c t) as [|row0 rows] eqn:Hsel.
  { cbn. split; [|reflexivity]. split; [discriminate|].
    intros (_ & r & Hf & _). unfold find_link in Hf. now rewrite Hsel in Hf. }
  assert (Hf : find_link c t = Some row0)
    by (unfold find_link; now rewrite Hsel).
  pose proof (select_by_code_unique c t row0 Hu Hf) as Hone.
  destruct (find_link_In c t row0 Hf) as [Hin _].
  pose proof (proj1 (Forall_forall _ _) Hr row0 Hin) as Hb.
  cbv beta in Hb.
  destruct (Z.eq_dec (clicks row0) INT4_MAX) as [E | E].
  - rewrite (update_click_None c now t row0); cbn.
    + split; [|reflexivity]. split; [|reflexivity].
      intros _. split; [reflexivity|]. now exists row0.
    + rewrite Hone. now left.
    + lia.
  - rewrite update_click_Some; cbn.
    + split; [|discriminate]. split; [discriminate|].
      intros (_ & r & Hf' & Hc). congruence.
    + intros r0. rewrite Hone. intros [<-|[]]. lia.
Qed.

Lemma get_code_internal_error_witness :
  store_ok saturated_table
  /\ has_nul "mycode1" = false
  /\ status_of (fst (get_code "mycode1" 9 saturated_table)) = 500.
Proof.
  assert (Hok : store_ok saturated_table).
  { split.
    - unfold unique_codes. simpl. constructor; [intros []|constructor].
    - constructor; [|constructor]. vm_compute. split; discriminate. }
  split; [exact Hok|]. split; [reflexivity|].
  apply (proj1 (get_code_internal_error "mycode1" 9 saturated_table
                  Hok eq_refl)).
  split; [reflexivity|]. eexists. split; reflexivity.
Defined.

(* ================================================================== *)
(** ** The range of the generator *)
(* ================================================================== *)

Lemma floor_scaled_exact (k : Z) (d : positive) :
  floor_scaled (k # d) (Zpos d) = k.
Proof.
  unfold floor_scaled, Qfloor, Qmult, inject_Z. cbn [Qnum Qden].
  rewrite Pos.mul_1_r. apply Z.div_mul. discriminate.
Qed.

Lemma position_chars (a : ascii) :
  is_alnum a = true ->
  charAt chars (position a chars) = String a EmptyString
  /\ 0 <= position a chars < 62.
Proof.
  destruct a as [[] [] [] [] [] [] [] []]; vm_compute;
    try discriminate; intros _; repeat split; congruence.
Qed.

Lemma append_assoc (a b c : string) : (a ++ b) ++ c = a ++ (b ++ c).
Proof. induction a as [|x a IH]; simpl; [reflexivity | now rewrite IH]. Qed.

Lemma get_append_here (pre rest : string) (a : ascii) :
  get (String.length pre) (pre ++ String a rest) = Some a.
Proof. induction pre as [|x pre IH]; simpl; [reflexivity | exact IH]. Qed.

Lemma all_alnum_get (s : string) (j : nat) (a : ascii) :
  all_alnum s = true -> get j s = Some a -> is_alnum a = true.
Proof.
  revert j. induction s as [|x s IH]; intros j Hal Hg; [discriminate|].
  cbn [all_alnum] in Hal. apply andb_prop in Hal. destruct Hal as [Hx Hs].
  destruct j as [|j]; cbn [get] in Hg.
  - now injection Hg as <-.
  - exact (IH j Hs Hg).
Qed.

Lemma generate_loop_spells (s : string) :
  forall (rest pre acc : string),
    s = pre ++ rest ->
    all_alnum rest = true ->
    generate_loop (draws_for s) (S (String.length pre)) (String.length rest)
                  acc
    = acc ++ rest.
Proof.
  induction rest as [|a rest IH]; intros pre acc Hs Hal.
  - cbn [String.length generate_loop]. clear.
    induction acc as [|x acc IH]; simpl; [reflexivity | now rewrite <- IH].
  - cbn [all_alnum] in Hal. apply andb_prop in Hal. destruct Hal as [Ha Hrest].
    cbn [String.length generate_loop].
    replace (draws_for s (S (String.length pre)))
      with (position a chars # 62).
    2:{ cbn [draws_for]. now rewrite Hs, get_append_here. }
    change (Z.of_nat (String.length chars)) with (Zpos 62).
    rewrite floor_scaled_exact, (proj1 (position_chars a Ha)).
    specialize (IH (pre ++ String a EmptyString) (acc ++ String a EmptyString)).
    rewrite length_append in IH. cbn [String.length] in IH.
    rewrite Nat.add_1_r in IH. rewrite IH.
    + now rewrite append_assoc.
    + now rewrite append_assoc.
    + exact Hrest.
Qed.

(** X10.  The generator reaches every code the pattern accepts: for each
    string of 6 to 8 letters and digits there are draws in [[0, 1)] under
    which [generateShortCode] returns that string.  No code is kept back,
    the reserved path names among them. *)
Theorem generateShortCode_reaches (s : string) :
  code_pattern_test s = true ->
  unit_draws (draws_for s) /\ generateShortCode (draws_for s) = s.
Proof.
  intros Hpat.
  pose proof (code_pattern_length s Hpat) as Hlen.
  assert (Hal : all_alnum s = true).
  { unfold code_pattern_test in Hpat.
    apply andb_prop in Hpat. destruct Hpat as [Hpat _].
    apply andb_prop in Hpat. tauto. }
  split.
  - intros [|j]; unfold draws_for, Qle, Qlt; cbn [Qnum Qden].
    + lia.
    + destruct (get j s) as [a|] eqn:Hg; cbn [Qnum Qden]; [|lia].
      pose proof (proj2 (position_chars a (all_alnum_get s j a Hal Hg))).
      lia.
  - unfold generateShortCode.
    change (draws_for s 0%nat) with ((Z.of_nat (String.length s) - 6) # 3).
    rewrite (floor_scaled_exact _ 3).
    replace (Z.to_nat (Z.of_nat (String.length s) - 6 + 6))
      with (String.length s) by lia.
    exact (generate_loop_spells s s EmptyString EmptyString eq_refl Hal).
Qed.

Lemma generateShortCode_reaches_witness :
  code_pattern_test "public" = true
  /\ reserved "public" = true
  /\ generateShortCode (draws_for "public") = "public".
Proof.
  split; [reflexivity|]. split; [reflexivity|].
  exact (proj2 (generateShortCode_reaches "public" eq_refl)).
Defined.

(* ================================================================== *)
(** ** Requests of every kind in flight together *)
(* ================================================================== *)

Lemma post_api_links_alone (isURL : string -> bool) (req : create_body)
  (rand : nat -> Q) (now0 now : Z) (t : table) :
  post_api_links isURL req rand now t
  = match create_begin isURL req rand with
    | Answered res => (res, t)
    | k0 =>
        let (k1, t1) := create_resume now0 k0 t in
        match k1 with
        | Answered res => (res, t1)
        | _ =>
            match create_resume now k1 t1 with
            | (Answered res, t2) => (res, t2)
            | (_, t2) => (internal_error, t2)
            end
        end
    end.
Proof.
  assert (H : forall c u,
             insert_unless_exists c u now t
             = let (k1, t1) := create_resume now0 (AwaitExisting c u) t in
               match k1 with
               | Answered res => (res, t1)
               | _ =>
                   match create_resume now k1 t1 with
                   | (Answered res, t2) => (res, t2)
                   | (_, t2) => (internal_error, t2)
                   end
               end).
  { intros c u. unfold insert_unless_exists. cbn [create_resume].
    destruct (select_by_code c t); [|reflexivity].
    cbn [create_resume].
    destruct (insert_link c u now t) as [[row0 t']|]; reflexivity. }
  unfold post_api_links, create_begin.
  destruct (falsy (url req) || negb (isURL (text (url req))));
    [reflexivity|].
  cbv zeta. destruct (falsy (customCode req)); [apply H|].
  destruct (negb (code_pattern_test (text (customCode req))));
    [reflexivity | apply H].
Qed.

Lemma server_resume_ok (now : Z) (k : server_task) (t : table) :
  store_ok t -> store_ok (snd (server_resume now k t)).
Proof.
  intros Hok. destruct k as [k0|k0|c|res]; cbn [server_resume].
  - destruct k0 as [c|c rows|res]; cbn [redirect_resume].
    + now destruct (select_by_code c t).
    + destruct (update_click c now t) as [t'|] eqn:Hup; [|exact Hok].
      exact (store_ok_update c now t t' Hok Hup).
    + exact Hok.
  - destruct k0 as [c u|c u|res]; cbn [create_resume].
    + now destruct (select_by_code c t).
    + destruct (insert_link c u now t) as [[row0 t']|] eqn:Hins;
        [|exact Hok].
      exact (proj2 (proj2 (store_ok_insert c u now t t' row0 Hok Hins))).
    + exact Hok.
  - pose proof (store_ok_delete c t Hok) as Hd.
    unfold delete_api_links_code.
    destruct (delete_by_code c t) as [[|d ds] t']; cbn [snd] in Hd |- *;
      assumption.
  - exact Hok.
Qed.

Lemma server_resume_nth_ok (i : nat) (now : Z) (ks : list server_task)
  (t : table) :
  store_ok t -> store_ok (snd (server_resume_nth i now ks t)).
Proof.
  revert i. induction ks as [|k ks IH]; intros i Hok; [exact Hok|].
  destruct i as [|i]; cbn [server_resume_nth].
  - pose proof (server_resume_ok now k t Hok) as H.
    now destruct (server_resume now k t).
  - pose proof (IH i Hok) as H.
    now destruct (server_resume_nth i now ks t).
Qed.

(** X11.  However the statements of any number of redirects, creates and
    deletes in flight are interleaved, the table they leave has unique
    codes and counters that are non-negative [INTEGER]s, if the table they
    started on had. *)
Theorem server_run_keeps_store_ok (sched : list (nat * Z))
  (ks : list server_task) (t : table) :
  store_ok t -> store_ok (snd (server_run sched ks t)).
Proof.
  revert ks t. induction sched as [|[i now] sched IH]; intros ks t Hok;
    [exact Hok|].
  cbn [server_run].
  pose proof (server_resume_nth_ok i now ks t Hok) as H.
  destruct (server_resume_nth i now ks t) as [ks' t']. now apply IH.
Qed.

Lemma server_run_keeps_store_ok_witness :
  store_ok mycode1_table
  /\ store_ok
       (snd (server_run [(1%nat, 1); (0%nat, 2); (1%nat, 3); (0%nat, 4);
                         (2%nat, 5)]
               [ Redirecting (redirect_begin "mycode1");
                 Creating (create_begin isURL_sample
                             (mkBody (Some "http://x.com") (Some "mycode1"))
                             sample_draws);
                 Deleting "mycode1" ]
               mycode1_table)).
Proof.
  split; [exact mycode1_table_ok|].
  apply (server_run_keeps_store_ok _ _ mycode1_table mycode1_table_ok).
Defined.



Section Race.

Variables (c u1 u2 : string) (t : table).
Hypothesis valid_code : code_pattern_test c = true.
Hypothesis free : select_by_code c t = [].
Hypothesis clean1 : has_nul u1 = false.
Hypothesis clean2 : has_nul u2 = false.






End Race.





Lemma click_where_absent (c : string) (now : Z) (t : table) :
  select_by_code c t = [] -> map (click_where c now) t = t.
Proof.
  intros Hsel. rewrite <- (map_id t) at 2. apply map_ext_in.
  intros r Hin. unfold click_where.
  destruct (short_code r =? c) eqn:E; [|reflexivity].
  apply String.eqb_eq in E.
  assert (H : In r (select_by_code c t))
    by (apply select_by_code_In; now split).
  now rewrite Hsel in H.
Qed.

(** X14.  A redirect overtaken by a delete.  When the link is deleted
    between the [SELECT] and the [UPDATE] of a redirect to it, the
    redirect is still answered with the 302 to the destination it read,
    its [UPDATE] finds no row, and the table is the one the delete left:
    the click is recorded nowhere. *)
Theorem redirect_overtaken_by_delete (c : string) (t : table) (r : link)
  (n1 n2 n3 : Z) :
  reserved c = false ->
  find_link c t = Some r ->
  server_run [(0%nat, n1); (1%nat, n2); (0%nat, n3)]
    [Redirecting (redirect_begin c); Deleting c] t
  = ([Finished (Redirect 302 (original_url r));
      Finished (Json 200 (message "Link deleted successfully"))],
     snd (delete_by_code c t)).
Proof.
  intros Hres Hf. unfold redirect_begin. rewrite Hres.
  assert (Hgone : select_by_code c (snd (delete_by_code c t)) = [])
    by (rewrite select_by_code_delete; now rewrite String.eqb_refl).
  unfold find_link in Hf.
  destruct (select_by_code c t) as [|row0 rows] eqn:Hsel; [discriminate|].
  injection Hf as ->.
  cbn [server_run server_resume_nth server_resume redirect_resume].
  rewrite Hsel. cbn [settle_redirect server_resume_nth server_resume].
  rewrite (delete_api_links_code_found c t r)
    by (unfold find_link; now rewrite Hsel).
  cbn [server_resume_nth server_resume redirect_resume].
  rewrite update_click_Some by (intros r0; rewrite Hgone; intros []).
  rewrite (click_where_absent c n3 _ Hgone). reflexivity.
Qed.

Lemma redirect_overtaken_by_delete_witness :
  find_link "mycode1" mycode1_table = Some mycode1_link
  /\ server_run [(0%nat, 1); (1%nat, 2); (0%nat, 3)]
       [Redirecting (redirect_begin "mycode1"); Deleting "mycode1"]
       mycode1_table
     = ([Finished (Redirect 302 "https://example.com");
         Finished (Json 200 (message "Link deleted successfully"))],
        []).
Proof.
  split; [reflexivity|].
  exact (redirect_overtaken_by_delete "mycode1" mycode1_table mycode1_link
           1 2 3 eq_refl eq_refl).
Defined.

(* ================================================================== *)
(** ** The schema file *)
(* ================================================================== *)









(* ================================================================== *)
(** ** public/script.js: escaping *)
(* ================================================================== *)

Lemma replace_all_append (c : ascii) (by_ x y : string) :
  replace_all c by_ (x ++ y) = replace_all c by_ x ++ replace_all c by_ y.
Proof.
  induction x as [|a x IH]; cbn [append replace_all]; [reflexivity|].
  rewrite IH. destruct (Ascii.eqb a c); [|reflexivity].
  now rewrite append_assoc.
Qed.

Lemma escapeHtml_append (x y : string) :
  escapeHtml (x ++ y) = escapeHtml x ++ escapeHtml y.
Proof. unfold escapeHtml. now rewrite !replace_all_append. Qed.

Lemma escapeHtml_single (a : ascii) :
  escapeHtml (String a EmptyString) = escape_char a.
Proof. destruct a as [[] [] [] [] [] [] [] []]; vm_compute; reflexivity. Qed.

Lemma escapeHtml_cons (a : ascii) (s : string) :
  escapeHtml (String a s) = escape_char a ++ escapeHtml s.
Proof.
  change (String a s) with (String a EmptyString ++ s).
  now rewrite escapeHtml_append, escapeHtml_single.
Qed.

(** X16.  The five replacements of [escapeHtml], made one after the other
    on the whole string, come to one substitution made character by
    character: an ampersand that a later replacement writes is not
    escaped again.  So escaping goes through concatenation. *)
Theorem escapeHtml_charwise (x y : string) :
  escapeHtml x = escape_each x
  /\ escapeHtml (x ++ y) = escapeHtml x ++ escapeHtml y.
Proof.
  split; [|apply escapeHtml_append].
  induction x as [|a x IH]; [reflexivity|].
  rewrite escapeHtml_cons, IH. reflexivity.
Qed.

Lemma occurs_append (a : ascii) (x y : string) :
  occurs a (x ++ y) = occurs a x || occurs a y.
Proof.
  induction x as [|b x IH]; cbn [append occurs]; [reflexivity|].
  now rewrite IH, orb_assoc.
Qed.

Lemma html_special_cases (a : ascii) :
  html_special a = true -> a = "<"%char \/ a = ">"%char \/ a = dquote
                           \/ a = "'"%char.
Proof.
  unfold html_special. intros H.
  repeat (apply orb_prop in H; destruct H as [H | H]);
    apply Ascii.eqb_eq in H; auto.
Qed.

Lemma escape_char_clean (a b : ascii) :
  html_special a = true -> occurs a (escape_char b) = false.
Proof.
  intros H. apply html_special_cases in H.
  destruct H as [-> | [-> | [-> | ->]]];
    destruct b as [[] [] [] [] [] [] [] []]; vm_compute; reflexivity.
Qed.

(** X17.  What [escapeHtml] returns contains none of the characters
    [<], [>], the double quote and the single quote, whatever it is
    given. *)
Theorem escapeHtml_clean (s : string) (a : ascii) :
  html_special a = true -> occurs a (escapeHtml s) = false.
Proof.
  intros H. induction s as [|b s IH]; [reflexivity|].
  rewrite escapeHtml_cons, occurs_append, IH.
  now rewrite (escape_char_clean a b H).
Qed.

Lemma escapeHtml_clean_witness :
  html_special "<" = true
  /\ escapeHtml "<a href='x'>&</a>"
     = "&lt;a href=&#039;x&#039;&gt;&amp;&lt;/a&gt;"
  /\ occurs "<" (escapeHtml "<a href='x'>&</a>") = false.
Proof.
  split; [reflexivity|]. split; [vm_compute; reflexivity|].
  exact (escapeHtml_clean "<a href='x'>&</a>" "<" eq_refl).
Defined.

Lemma escape_char_shape (a : ascii) :
  (escape_char a = String a EmptyString /\ a <> "&"%char)
  \/ (a = "&"%char /\ escape_char a = "&amp;")
  \/ (a = "<"%char /\ escape_char a = "&lt;")
  \/ (a = ">"%char /\ escape_char a = "&gt;")
  \/ (a = dquote /\ escape_char a = "&quot;")
  \/ (a = "'"%char /\ escape_char a = "&#039;").
Proof.
  destruct a as [[] [] [] [] [] [] [] []];
    try (left; split; [reflexivity | discriminate]);
    vm_compute; tauto.
Qed.

Lemma escape_char_cancel (a b : ascii) (x y : string) :
  escape_char a ++ x = escape_char b ++ y -> a = b /\ x = y.
Proof.
  destruct (escape_char_shape a) as [[Ea Na] | Ha];
    destruct (escape_char_shape b) as [[Eb Nb] | Hb].
  - rewrite Ea, Eb. cbn [append]. intros [= -> ->]. auto.
  - rewrite Ea.
    destruct Hb as [[-> ->] | [[-> ->] | [[-> ->] | [[-> ->] | [-> ->]]]]];
      cbn [append]; intros [= E _]; now elim Na.
  - rewrite Eb.
    destruct Ha as [[-> ->] | [[-> ->] | [[-> ->] | [[-> ->] | [-> ->]]]]];
      cbn [append]; intros [= E _]; symmetry in E; now elim Nb.
  - destruct Ha as [[-> ->] | [[-> ->] | [[-> ->] | [[-> ->] | [-> ->]]]]];
      destruct Hb as [[-> ->] | [[-> ->] | [[-> ->] | [[-> ->] | [-> ->]]]]];
      cbn [append]; intros H; try discriminate H;
      injection H as ->; auto.
Qed.

(** X18.  [escapeHtml] loses nothing: two strings that it escapes to the
    same text are the same string. *)
Theorem escapeHtml_injective (x y : string) :
  escapeHtml x = escapeHtml y -> x = y.
Proof.
  revert y. induction x as [|a x IH]; intros y H.
  - destruct y as [|b y]; [reflexivity|].
    rewrite escapeHtml_cons in H. exfalso.
    destruct (escape_char_shape b)
      as [[E _] | [[_ E] | [[_ E] | [[_ E] | [[_ E] | [_ E]]]]]];
      rewrite E in H; discriminate H.
  - destruct y as [|b y].
    + rewrite escapeHtml_cons in H. exfalso.
      destruct (escape_char_shape a)
        as [[E _] | [[_ E] | [[_ E] | [[_ E] | [[_ E] | [_ E]]]]]];
        rewrite E in H; discriminate H.
    + rewrite !escapeHtml_cons in H.
      destruct (escape_char_cancel a b _ _ H) as [-> Hxy].
      now rewrite (IH y Hxy).
Qed.

Lemma escapeHtml_injective_witness :
  escapeHtml "a&b" = escapeHtml "a&b" /\ "a&b" = "a&b".
Proof.
  split; [reflexivity|].
  exact (escapeHtml_injective "a&b" "a&b" eq_refl).
Defined.

Lemma escape_char_alnum (a : ascii) :
  is_alnum a = true -> escape_char a = String a EmptyString.
Proof.
  destruct a as [[] [] [] [] [] [] [] []]; vm_compute;
    try discriminate; reflexivity.
Qed.

(** X19.  A string of letters and digits passes through [escapeHtml]
    unchanged; so does every code the custom-code pattern accepts and
    every code the generator returns. *)
Theorem escapeHtml_code (s : string) :
  all_alnum s = true -> escapeHtml s = s.
Proof.
  induction s as [|a s IH]; [reflexivity|].
  cbn [all_alnum]. intros H. apply andb_prop in H. destruct H as [Ha Hs].
  now rewrite escapeHtml_cons, (escape_char_alnum a Ha), (IH Hs).
Qed.

Lemma escapeHtml_code_witness :
  all_alnum "mycode1" = true /\ escapeHtml "mycode1" = "mycode1".
Proof.
  split; [reflexivity|]. exact (escapeHtml_code "mycode1" eq_refl).
Defined.

(* ================================================================== *)
(** ** public/script.js: searching *)
(* ================================================================== *)

Lemma toLowerCase_append (x y : string) :
  toLowerCase (x ++ y) = toLowerCase x ++ toLowerCase y.
Proof.
  induction x as [|a x IH]; cbn [append toLowerCase];
    [reflexivity | now rewrite IH].
Qed.

Lemma lower_ascii_idem (a : ascii) : lower_ascii (lower_ascii a) = lower_ascii a.
Proof. destruct a as [[] [] [] [] [] [] [] []]; vm_compute; reflexivity. Qed.

Lemma toLowerCase_idem (s : string) :
  toLowerCase (toLowerCase s) = toLowerCase s.
Proof.
  induction s as [|a s IH]; cbn [toLowerCase];
    [reflexivity | now rewrite lower_ascii_idem, IH].
Qed.

Lemma toLowerCase_empty (s : string) :
  (toLowerCase s =? "") = (s =? "").
Proof. destruct s; reflexivity. Qed.

Lemma append_empty_r (s : string) : s ++ "" = s.
Proof. induction s as [|x s IH]; cbn [append]; [reflexivity | now rewrite IH]. Qed.

Lemma prefix_iff (a s : string) :
  prefix a s = true <-> exists b, s = a ++ b.
Proof.
  revert s. induction a as [|x a IH]; intros s.
  - destruct s as [|y s]; cbn [prefix append];
      (split; [intros _; eexists; reflexivity | reflexivity]).
  - destruct s as [|y s]; cbn [prefix].
    + split; [discriminate | intros (b & H); discriminate H].
    + destruct (ascii_dec x y) as [<- | Hne].
      * rewrite IH. split; intros (b & H); exists b.
        -- now rewrite H.
        -- now injection H.
      * split; [discriminate|]. intros (b & H). injection H as H1 _.
        now elim Hne.
Qed.

Lemma str_includes_iff (s term : string) :
  str_includes s term = true <-> occurs_in term s.
Proof.
  unfold occurs_in. induction s as [|x s IH]; cbn [str_includes].
  - rewrite orb_false_r, prefix_iff. split.
    + intros (b & H). now exists EmptyString, b.
    + intros (a & b & H). destruct a; [now exists b | discriminate H].
  - split.
    + intros H. apply orb_prop in H. destruct H as [H | H].
      * apply prefix_iff in H. destruct H as (b & H).
        now exists EmptyString, b.
      * apply IH in H. destruct H as (a & b & ->).
        now exists (String x a), b.
    + intros (a & b & H). apply orb_true_intro. destruct a as [|y a].
      * left. apply prefix_iff. now exists b.
      * right. apply IH. injection H as _ ->. now exists a, b.
Qed.

Lemma occurs_in_refl (s : string) : occurs_in s s.
Proof. exists EmptyString, EmptyString. cbn [append]. now rewrite append_empty_r. Qed.

Lemma ascii_only_append (a b : string) :
  ascii_only (a ++ b) = ascii_only a && ascii_only b.
Proof.
  induction a as [|x a IH]; cbn [append ascii_only]; [reflexivity|].
  now rewrite IH, andb_assoc.
Qed.

Lemma filterLinks_In (lower : string -> string) (term : string)
  (app : app_state) (l : link) :
  term <> "" ->
  In l (filteredLinks (filterLinks lower term app))
  <-> In l (links app)
      /\ (occurs_in (lower term) (lower (short_code l))
          \/ occurs_in (lower term) (lower (original_url l))).
Proof.
  intros Hne. unfold filterLinks.
  rewrite (proj2 (String.eqb_neq term "") Hne). cbn [filteredLinks].
  rewrite filter_In. unfold link_matches.
  rewrite orb_true_iff, !str_includes_iff. reflexivity.
Qed.

(** The lowered term occurs in the lowered text when the term is, but for
    the case of the letters A-Z, a part of the text, both being ASCII. *)
Lemma occurs_in_lowered (lower : string -> string) (term part s : string) :
  lowers_ascii lower ->
  ascii_only s = true -> ascii_only term = true ->
  occurs_in part s -> toLowerCase part = toLowerCase term ->
  occurs_in (lower term) (lower s).
Proof.
  intros Hl Hs Hterm (a & b & E) Hcase.
  rewrite (Hl s Hs), (Hl term Hterm), E, !toLowerCase_append, Hcase.
  now exists (toLowerCase a), (toLowerCase b).
Qed.

(** X20.  What the search box shows.  With a term that is not empty,
    [filterLinks] shows exactly the loaded links whose code or
    destination, lowered by [toLowerCase], contains the lowered term;
    with the empty term it shows them all.  The loaded links are never
    changed, each search starts from all of them again rather than from
    what the last search showed, and the code of a loaded link, typed as
    it is, finds the link. *)
Theorem filterLinks_shows (lower : string -> string) (term term0 : string)
  (app : app_state) :
  links (filterLinks lower term app) = links app
  /\ filteredLinks (filterLinks lower "" app) = links app
  /\ filterLinks lower term (filterLinks lower term0 app)
     = filterLinks lower term app
  /\ (term <> "" ->
      forall l,
        In l (filteredLinks (filterLinks lower term app))
        <-> In l (links app)
            /\ (occurs_in (lower term) (lower (short_code l))
                \/ occurs_in (lower term) (lower (original_url l))))
  /\ (forall l, In l (links app) ->
                In l (filteredLinks (filterLinks lower (short_code l) app))).
Proof.
  split; [|split; [|split; [|split]]].
  - unfold filterLinks. now destruct (term =? "").
  - reflexivity.
  - unfold filterLinks. destruct (term0 =? ""); now destruct (term =? "").
  - intros Hne l. now apply filterLinks_In.
  - intros l Hin. destruct (String.eqb_spec (short_code l) "") as [E | Hne].
    + rewrite E. exact Hin.
    + apply (filterLinks_In lower _ app l Hne).
      split; [exact Hin|]. left. apply occurs_in_refl.
Qed.

Lemma filterLinks_shows_witness :
  "EXAMPLE" <> ""
  /\ In mycode1_link
        (filteredLinks
           (filterLinks toLowerCase "EXAMPLE" (mkApp mycode1_table []))).
Proof.
  assert (Hne : "EXAMPLE" <> "") by discriminate.
  split; [exact Hne|].
  apply (proj2 (proj1 (proj2 (proj2 (proj2
                  (filterLinks_shows toLowerCase "EXAMPLE" ""
                     (mkApp mycode1_table [])))))
                  Hne mycode1_link)).
  split; [now left|]. right.
  exists "https://", ".com". reflexivity.
Defined.

(** X21.  Typing a part of a link's code or destination, in whatever
    case of the letters A-Z, keeps the link in view, when the term and
    the code or destination are ASCII: there the [toLowerCase] of the
    browser changes the letters A-Z and nothing else. *)
Theorem filterLinks_finds (lower : string -> string) (term part : string)
  (app : app_state) (l : link) :
  lowers_ascii lower ->
  In l (links app) ->
  ascii_only term = true ->
  toLowerCase part = toLowerCase term ->
  (occurs_in part (short_code l) /\ ascii_only (short_code l) = true)
  \/ (occurs_in part (original_url l)
      /\ ascii_only (original_url l) = true) ->
  In l (filteredLinks (filterLinks lower term app)).
Proof.
  intros Hl Hin Hterm Hcase Hocc.
  destruct (String.eqb_spec term "") as [-> | Hne]; [exact Hin|].
  apply (filterLinks_In lower term app l Hne).
  split; [exact Hin|].
  destruct Hocc as [[Hocc Hs] | [Hocc Hs]]; [left | right];
    exact (occurs_in_lowered lower term part _ Hl Hs Hterm Hocc Hcase).
Qed.

Lemma filterLinks_finds_witness :
  lowers_ascii toLowerCase
  /\ In mycode1_link (links (mkApp mycode1_table []))
  /\ In mycode1_link
        (filteredLinks
           (filterLinks toLowerCase "MyCode" (mkApp mycode1_table []))).
Proof.
  assert (Hl : lowers_ascii toLowerCase) by (intros s _; reflexivity).
  split; [exact Hl|]. split; [now left|].
  apply (filterLinks_finds toLowerCase "MyCode" "mycode"
           (mkApp mycode1_table []) mycode1_link Hl).
  - now left.
  - reflexivity.
  - reflexivity.
  - left. split; [|reflexivity]. exists EmptyString, "1". reflexivity.
Defined.

(* ================================================================== *)
(** ** public/script.js: the form and the server *)
(* ================================================================== *)

Lemma validateCustomCode_valid (code : string) (forSubmit : bool) :
  valid (validateCustomCode code forSubmit) = true
  <-> falsy (if code =? "" then None else Some code)
      || code_pattern_test (text (if code =? "" then None else Some code))
      = true.
Proof.
  unfold validateCustomCode.
  destruct (code =? "") eqn:E; cbn [falsy text valid orb].
  - tauto.
  - rewrite E. cbn [orb].
    destruct (code_pattern_test code); cbn [negb valid]; tauto.
Qed.

(** X22.  The check of the form and the check of the server are the same
    check.  [validateCustomCode] lets a code through exactly when
    [POST /api/links] would not refuse the body the form then sends for
    its custom code; and the message the form shows on submit for a code
    it refuses is word for word the error of the server's 400. *)
Theorem validateCustomCode_agrees (code : string) (forSubmit : bool) :
  let sent := if code =? "" then None else Some code in
  (valid (validateCustomCode code forSubmit) = true
   <-> falsy sent || code_pattern_test (text sent) = true)
  /\ (valid (validateCustomCode code true) = false ->
      forall isURL u rand now t,
        u <> "" -> isURL u = true ->
        error_shown (validateCustomCode code true)
        = match fst (post_api_links isURL (mkBody (Some u) (Some code))
                       rand now t) with
          | Json 400 (JObj [(_, VText msg)]) => Some msg
          | _ => None
          end).
Proof.
  cbv zeta. split; [apply validateCustomCode_valid|].
  unfold validateCustomCode.
  - destruct (code =? "") eqn:E; cbn [valid]; [discriminate|].
    destruct (code_pattern_test code) eqn:Hpat; cbn [negb valid];
      [discriminate|].
    intros _ isURL u rand now t Hne Hu. cbn [error_shown].
    unfold post_api_links. cbn [url customCode falsy text].
    rewrite (proj2 (String.eqb_neq u "") Hne), Hu, E, Hpat.
    reflexivity.
Qed.

Lemma validateCustomCode_agrees_witness :
  valid (validateCustomCode "ab" true) = false
  /\ error_shown (validateCustomCode "ab" true)
     = Some "Custom code must be 6-8 characters and contain only letters and numbers".
Proof.
  split; [reflexivity|].
  rewrite (proj2 (validateCustomCode_agrees "ab" true) eq_refl isURL_sample
             "http://x.com" sample_draws 0 []
             ltac:(discriminate) eq_refl).
  reflexivity.
Defined.



(* ================================================================== *)
(** ** The stats page *)
(* ================================================================== *)

(** X24.  [GET /code/:code] shows no page in a process without a global
    [window].  The template of the page reads [window.location.origin];
    where that raises, the handler's [catch] answers every request, for a
    code that exists as for one that does not, with the redirect to the
    dashboard, and the table is left as it was.  Only where [window]
    exists is a page sent for an existing code. *)
Theorem get_code_code_redirects (markup : nat -> string)
  (to_string : value -> string) (toLocaleString : Z -> string)
  (window_origin : option string) (code : string) (t : table) :
  (window_origin = None ->
   get_code_code markup to_string toLocaleString window_origin code t
   = (RedirectTo "/", t))
  /\ (forall origin r,
         window_origin = Some origin ->
         find_link code t = Some r ->
         exists html,
           get_code_code markup to_string toLocaleString window_origin code t
           = (Send html, t)).
Proof.
  split.
  - intros ->. unfold get_code_code.
    destruct (select_by_code code t) as [|row0 rows]; reflexivity.
  - intros origin r -> Hf. unfold get_code_code, find_link in *.
    destruct (select_by_code code t) as [|row0 rows]; [discriminate|].
    cbn [stats_template eval_template eval_page_expr].
    destruct (last_clicked_at row0); eexists; reflexivity.
Qed.

Lemma get_code_code_redirects_witness :
  get_code_code (fun _ => "") (fun _ => "") (fun _ => "") None "mycode1"
    mycode1_table
  = (RedirectTo "/", mycode1_table).
Proof.
  exact (proj1 (get_code_code_redirects (fun _ => "") (fun _ => "")
                  (fun _ => "") None "mycode1" mycode1_table) eq_refl).
Defined.
